(** * Vertex AI discovery sweep and Gemini client: model and properties

    A shallow embedding of [vertex_on_demand.py] and of the request-shaping
    part of [gemini3pro-deepthink.py].

    Conventions of the embedding.
    - A Python [str] is the [string] of the bytes of its UTF-8 encoding:
      an ASCII character is one byte, any other character a sequence of
      two to four bytes above 127. Substring tests, splitting and
      comparison by code point are the same on the bytes. [strip] and the
      case-insensitive search know the encodings of the characters that
      Python treats as blank or as variants of an ASCII letter; [lower]
      changes ASCII letters only, which is enough for the keywords it is
      used with.
    - A Python [int] is a [Z].
    - A Python [dict] used as a record is a [Record]; a [dict] used as a
      table and [os.environ] are [gmap]s; a Python [set] is a [gset].
    - A call that may raise or leave the process has an [outcome].
    - HTTP calls are answered by a [network]; every call is also logged, so
      that the number of calls a function makes can be stated. *)

From Stdlib Require Import ZArith String Ascii List Sorted Permutation Lia.
From stdpp Require Import base decidable option list strings gmap sorting.


Local Open Scope Z_scope.

(** ** Python values and control flow *)

Module Py.

(** Exceptions the two scripts can meet. [SystemExit] is kept apart, in
    [outcome], because [except Exception] does not catch it. *)
Inductive exn : Type :=
  | requests_Timeout
  | subprocess_TimeoutExpired
  | FileNotFoundError
  | other_Exception (name : string).

Inductive outcome (A : Type) : Type :=
  | Returns (a : A)
  | Raises (e : exn)
  | Exits (code : Z).
Arguments Returns {A} a.
Arguments Raises {A} e.
Arguments Exits {A} code.

(** Truthiness of an optional string: [None] and [""] are falsy. *)
Definition truthy (s : option string) : bool :=
  match s with
  | Some (String _ _) => true
  | _ => false
  end.

(** [a or b] on optional strings. *)
Definition or_else (a b : option string) : option string :=
  if truthy a then a else b.

(** [str.lower] on one character. *)
Definition lower_ascii (c : ascii) : ascii :=
  let n := nat_of_ascii c in
  if ((65 <=? n) && (n <=? 90))%nat then ascii_of_nat (n + 32) else c.

Fixpoint lower (s : string) : string :=
  match s with
  | EmptyString => EmptyString
  | String c t => String (lower_ascii c) (lower t)
  end.

(** What [re.IGNORECASE] makes of a text that is searched for lower-case
    ASCII letters: an ASCII capital counts as its small letter, U+0130
    and U+0131 count as [i], U+017F as [s] and U+212A as [k]; no other
    character matches an ASCII letter. *)
Fixpoint fold_case (s : string) : string :=
  match s with
  | EmptyString => EmptyString
  | String a t =>
      let x := nat_of_ascii a in
      match t with
      | EmptyString => String (lower_ascii a) EmptyString
      | String b u =>
          let y := nat_of_ascii b in
          if ((x =? 196) && ((y =? 176) || (y =? 177)))%nat then
            String "i" (fold_case u)
          else if ((x =? 197) && (y =? 191))%nat then
            String "s" (fold_case u)
          else
            match u with
            | EmptyString => String (lower_ascii a) (fold_case t)
            | String c v =>
                if ((x =? 226) && (y =? 132)
                    && (nat_of_ascii c =? 170))%nat
                then String "k" (fold_case v)
                else String (lower_ascii a) (fold_case t)
            end
      end
  end.

(** [needle in hay] on strings. *)
Fixpoint str_in (needle hay : string) : bool :=
  String.prefix needle hay ||
  match hay with
  | EmptyString => false
  | String _ t => str_in needle t
  end.

(** [str.isspace] on one ASCII character. *)
Definition is_space (c : ascii) : bool :=
  let n := nat_of_ascii c in
  (((9 <=? n) && (n <=? 13)) || ((28 <=? n) && (n <=? 32)))%nat.

(** The blank characters encoded on two bytes: U+0085 and U+00A0. *)
Definition is_space2 (a b : ascii) : bool :=
  let x := nat_of_ascii a in
  let y := nat_of_ascii b in
  ((x =? 194) && ((y =? 133) || (y =? 160)))%nat.

(** The blank characters encoded on three bytes: U+1680, U+2000 to
    U+200A, U+2028, U+2029, U+202F, U+205F and U+3000. *)
Definition is_space3 (a b c : ascii) : bool :=
  let x := nat_of_ascii a in
  let y := nat_of_ascii b in
  let z := nat_of_ascii c in
  (((x =? 225) && (y =? 154) && (z =? 128))
   || ((x =? 226) && (y =? 128)
       && (((128 <=? z) && (z <=? 138)) || (z =? 168) || (z =? 169)
           || (z =? 175)))
   || ((x =? 226) && (y =? 129) && (z =? 159))
   || ((x =? 227) && (y =? 128) && (z =? 128)))%nat.

(** [str.lstrip]: the blank characters at the start are dropped, whatever
    the number of bytes of each. *)
Fixpoint lstrip (s : string) : string :=
  match s with
  | EmptyString => EmptyString
  | String a t =>
      if is_space a then lstrip t
      else
        match t with
        | EmptyString => s
        | String b u =>
            if is_space2 a b then lstrip u
            else
              match u with
              | EmptyString => s
              | String c v => if is_space3 a b c then lstrip v else s
              end
        end
  end.

(** [str.rstrip]: a byte is kept unless only blank characters follow from
    it on. *)
Fixpoint rstrip (s : string) : string :=
  match s with
  | EmptyString => EmptyString
  | String c t =>
      match lstrip s with
      | EmptyString => EmptyString
      | _ => String c (rstrip t)
      end
  end.

Definition strip (s : string) : string := rstrip (lstrip s).

(** [s.split(sep)] for a one-character separator: always at least one
    field. *)
Fixpoint split (sep : ascii) (s : string) : list string :=
  match s with
  | EmptyString => [EmptyString]
  | String c t =>
      if Ascii.eqb c sep then EmptyString :: split sep t
      else match split sep t with
           | [] => [String c EmptyString]
           | f :: fs => String c f :: fs
           end
  end.

(** The longest prefix without the character [c], and what follows it. *)
Fixpoint break_at (c : ascii) (s : string) : string * string :=
  match s with
  | EmptyString => (EmptyString, EmptyString)
  | String a t =>
      if Ascii.eqb a c then (EmptyString, s)
      else let '(p, r) := break_at c t in (String a p, r)
  end.

(** What follows the literal [p] when [s] starts with it. *)
Fixpoint strip_prefix (p s : string) : option string :=
  match p, s with
  | EmptyString, _ => Some s
  | String a p', String b s' =>
      if Ascii.eqb a b then strip_prefix p' s' else None
  | String _ _, EmptyString => None
  end.

(** Comparison of the sort key, a pair of strings: [a < b] on tuples
    compares the first components that differ, by character code. *)
Definition tuple_lt (a b : string * string) : bool :=
  if String.eqb a.1 b.1 then String.ltb a.2 b.2 else String.ltb a.1 b.1.

(** [list.sort(key=...)] is a stable sort that only asks [<] of the keys.
    It is modelled by stable insertion: an element goes before the first
    one that is not smaller than it. *)
Section sort.
Context {A : Type} (key : A → string * string).

Fixpoint sort_insert (x : A) (l : list A) : list A :=
  match l with
  | [] => [x]
  | y :: l' =>
      if tuple_lt (key y) (key x) then y :: sort_insert x l'
      else x :: y :: l'
  end.

Definition sort_by (l : list A) : list A := foldr sort_insert [] l.

End sort.

End Py.

(** ** vertex_on_demand.py *)

Module VertexOnDemand.
Import Py.

Definition PUBLISHERS : list string :=
  ["google"; "anthropic"; "meta"; "mistral-ai"; "ai21"].

Definition LLM_PATTERNS : list string :=
  ["gemini"; "claude"; "llama"; "mistral"; "mixtral"; "codestral"; "jamba"].

Definition CONTINENT_REGIONS : gmap string (list string) :=
  list_to_map
    [("us", ["us-central1"; "us-east1"; "us-east4"; "us-east5";
             "us-south1"; "us-west1"; "us-west4"]);
     ("europe", ["europe-west1"; "europe-west4"; "europe-west9"]);
     ("asia", ["asia-east1"; "asia-east2"; "asia-northeast1";
               "asia-northeast3"; "asia-south1"; "asia-southeast1"])].

(** *** The outside world *)

(** What [subprocess.run] gives back. *)
Inductive run_result : Type :=
  | Completed (returncode : Z) (stdout stderr : string)
  | RunRaises (e : exn).

(** JSON request bodies, as the dict literals of the source. *)
#[warnings="-register-all"]
Inductive json : Type :=
  | JStr (s : string)
  | JInt (n : Z)
  | JList (l : list json)
  | JObj (fields : list (string * json)).

Record request : Type := {
  url : string;
  headers : list (string * string);
  payload : json;
  timeout : Z
}.

(** What [requests.post] gives back: a response with its status code and
    text, or an exception. *)
Inductive reply : Type :=
  | Response (status_code : Z) (text : string)
  | Throws (e : exn).

Definition network : Type := request → reply.

(** Computations that talk to the network: the outcome and the calls made,
    in order. *)
Definition Http (A : Type) : Type := network → outcome A * list request.

Definition ret {A} (a : A) : Http A := λ _, (Returns a, []).

Definition bind {A B} (m : Http A) (f : A → Http B) : Http B :=
  λ net,
    match m net with
    | (Returns a, log) => let '(r, log') := f a net in (r, log ++ log')
    | (Raises e, log) => (Raises e, log)
    | (Exits c, log) => (Exits c, log)
    end.

Notation "'let!' x ':=' m 'in' k" := (bind m (λ x, k))
  (at level 10, x name, m at level 100, k at level 200, only parsing).

(** [try: m except Exception as e: h e]. [SystemExit] passes through. *)
Definition try_except {A} (m : Http A) (h : exn → Http A) : Http A :=
  λ net,
    match m net with
    | (Raises e, log) => let '(r, log') := h e net in (r, log ++ log')
    | done => done
    end.

Definition requests_post (u : string) (hs : list (string * string))
    (body : json) (tmo : Z) : Http (Z * string) :=
  λ net,
    let req := {| url := u; headers := hs; payload := body; timeout := tmo |} in
    (match net req with
     | Response code txt => Returns (code, txt)
     | Throws e => Raises e
     end, [req]).

(** *** Report entries *)

(** The dict of a probe has an ["endpoint"], the dict of a regional check
    has ["regions"]; the other keys are shared. *)
Inductive place : Type :=
  | endpoint (e : string)
  | regions (l : list string).

Record model_info : Type := {
  publisher : string;
  model_id : string;
  status : string;
  located : place;
  requires_eula : bool
}.

Definition sort_key (m : model_info) : string * string :=
  (publisher m, model_id m).

(** *** check_model_availability *)

Definition chat_messages (content : string) : json :=
  JList [JObj [("role", JStr "user"); ("content", JStr content)]].

Definition probe_location (region : option string) : string :=
  if truthy region then default "" region else "global".

Definition probe_base_url (region : option string) : string :=
  if truthy region
  then "https://" +:+ probe_location region +:+ "-aiplatform.googleapis.com"
  else "https://aiplatform.googleapis.com".

Definition probe_url (project pub mid : string) (region : option string)
    (method : string) : string :=
  probe_base_url region +:+ "/v1/projects/" +:+ project +:+ "/locations/"
    +:+ probe_location region +:+ "/publishers/" +:+ pub +:+ "/models/"
    +:+ mid +:+ ":" +:+ method.

Definition probe_request (project pub mid access_token : string)
    (region : option string) : request :=
  let '(u, body) :=
    if String.eqb pub "anthropic" then
      (probe_url project pub mid region "rawPredict",
       JObj [("anthropic_version", JStr "vertex-2023-10-16");
             ("max_tokens", JInt 1);
             ("messages", chat_messages "hi")])
    else if String.eqb pub "mistral-ai" then
      (probe_url project pub mid region "rawPredict",
       JObj [("model", JStr mid);
             ("max_tokens", JInt 1);
             ("messages", chat_messages "hi")])
    else
      (probe_url project pub mid region "generateContent",
       JObj [("contents",
              JList [JObj [("role", JStr "user");
                           ("parts", JList [JObj [("text", JStr "hi")]])]]);
             ("generationConfig", JObj [("maxOutputTokens", JInt 1)])]) in
  {| url := u;
     headers := [("Authorization", "Bearer " +:+ access_token);
                 ("Content-Type", "application/json")];
     payload := body;
     timeout := 15 |}.

(** [publisher not in ["google"]] *)
Definition not_first_party (pub : string) : bool :=
  negb (bool_decide (pub ∈ ["google"])).

Definition check_model_availability (project pub mid access_token : string)
    (region : option string) : Http (option model_info) :=
  let req := probe_request project pub mid access_token region in
  try_except
    (let! response :=
       requests_post (url req) (headers req) (payload req) 15 in
     let '(code, txt) := response in
     if code =? 200 then
       ret (Some {| publisher := pub; model_id := mid;
                    status := "available";
                    located := endpoint (probe_location region);
                    requires_eula := not_first_party pub |})
     else if code =? 403 then
       let error_text := lower txt in
       if str_in "agreement" error_text || str_in "eula" error_text
          || str_in "terms" error_text
       then
         ret (Some {| publisher := pub; model_id := mid;
                      status := "needs_eula";
                      located := endpoint (probe_location region);
                      requires_eula := true |})
       else
         ret (Some {| publisher := pub; model_id := mid;
                      status := "needs_permission";
                      located := endpoint (probe_location region);
                      requires_eula := not_first_party pub |})
     else if code =? 404 then ret None
     else ret None)
    (λ e, match e with
          | requests_Timeout => ret None
          | _ => ret None
          end).

(** *** check_model_in_regions *)

(** The three lists the loop appends to. *)
Record buckets : Type := {
  available_regions : list string;
  needs_eula_regions : list string;
  needs_perm_regions : list string
}.

Definition file_region (region : string) (result : option model_info)
    (b : buckets) : buckets :=
  match result with
  | Some r =>
      if String.eqb (status r) "available" then
        {| available_regions := available_regions b ++ [region];
           needs_eula_regions := needs_eula_regions b;
           needs_perm_regions := needs_perm_regions b |}
      else if String.eqb (status r) "needs_eula" then
        {| available_regions := available_regions b;
           needs_eula_regions := needs_eula_regions b ++ [region];
           needs_perm_regions := needs_perm_regions b |}
      else if String.eqb (status r) "needs_permission" then
        {| available_regions := available_regions b;
           needs_eula_regions := needs_eula_regions b;
           needs_perm_regions := needs_perm_regions b ++ [region] |}
      else b
  | None => b
  end.

Fixpoint probe_regions (project pub mid access_token : string)
    (rs : list string) (b : buckets) : Http buckets :=
  match rs with
  | [] => ret b
  | region :: rest =>
      let! result :=
        check_model_availability project pub mid access_token (Some region) in
      probe_regions project pub mid access_token rest
        (file_region region result b)
  end.

Definition nonempty {A} (l : list A) : bool :=
  match l with [] => false | _ => true end.

Definition check_model_in_regions (project pub mid access_token : string)
    (rs : list string) : Http (option model_info) :=
  let! b :=
    probe_regions project pub mid access_token rs
      {| available_regions := []; needs_eula_regions := [];
         needs_perm_regions := [] |} in
  if nonempty (available_regions b) || nonempty (needs_eula_regions b)
     || nonempty (needs_perm_regions b)
  then
    let '(st, regions_list) :=
      if nonempty (available_regions b) then
        ("available", available_regions b)
      else if nonempty (needs_eula_regions b) then
        ("needs_eula", needs_eula_regions b)
      else ("needs_permission", needs_perm_regions b) in
    ret (Some {| publisher := pub; model_id := mid; status := st;
                 located := regions regions_list;
                 requires_eula := not_first_party pub |})
  else ret None.

(** *** fetch_model_garden_models *)

(** [re.match(r"publishers/([^/]+)/models/(.+)", line)] on a line without
    a newline: the publisher is the run of characters up to the first
    slash, the model is all that follows [/models/]; both are non-empty. *)
Definition match_resource_name (line : string) : option (string * string) :=
  match strip_prefix "publishers/" line with
  | None => None
  | Some rest =>
      let '(pub, rest') := break_at "/" rest in
      match pub, strip_prefix "/models/" rest' with
      | String _ _, Some (String c t) => Some (pub, String c t)
      | _, _ => None
      end
  end.

(** [llm_regex.search(model_id)]: the alternation of the literal patterns,
    ignoring case, found anywhere in the identifier. *)
Definition llm_regex_search (mid : string) : bool :=
  existsb (λ pat, str_in pat (fold_case mid)) LLM_PATTERNS.

Definition keep_line (line : string) : option (string * string) :=
  match line with
  | EmptyString => None
  | _ =>
      match match_resource_name line with
      | None => None
      | Some (pub, mid) =>
          if negb (bool_decide (pub ∈ PUBLISHERS)) then None
          else if negb (llm_regex_search mid) then None
          else Some (pub, mid)
      end
  end.

Definition newline : ascii := ascii_of_nat 10.

Definition fetch_model_garden_models (run : run_result)
    : outcome (list (string * string)) :=
  match run with
  | Completed returncode stdout _ =>
      if negb (returncode =? 0) then Returns []
      else Returns (omap keep_line (split newline (strip stdout)))
  | RunRaises subprocess_TimeoutExpired => Returns []
  | RunRaises FileNotFoundError => Returns []
  | RunRaises e => Raises e
  end.

(** *** get_model_patterns *)

Definition mistral_specific_models : list string :=
  ["mistral-medium-3"; "mistral-small-2503"; "mistral-ocr";
   "mistral-large-2407"; "codestral-2"; "codestral-2405"].

Definition google_models : list string :=
  ["gemini-3-pro-preview"; "gemini-3-flash-preview"; "gemini-2.5-pro";
   "gemini-2.5-flash"; "gemini-2.5-flash-lite"; "gemini-2.0-flash";
   "gemini-2.0-flash-001"; "gemini-2.0-flash-lite"].

Definition anthropic_models : list string :=
  ["claude-opus-4-5"; "claude-sonnet-4-5"; "claude-haiku-4-5";
   "claude-opus-4"; "claude-sonnet-4"; "claude-3-7-sonnet";
   "claude-3-5-sonnet"; "claude-3-5-haiku"; "claude-3-haiku"].

Definition meta_models : list string :=
  ["llama-4-maverick-17b-128e-instruct-maas"; "llama-3.3-70b-instruct-maas";
   "llama-3.2-90b-vision-instruct-maas"; "llama-3.1-405b-instruct-maas"].

Definition mistral_models : list string :=
  ["mistral-medium-3"; "mistral-small-2503"; "mistral-ocr";
   "mistral-large-2407"; "codestral-2"; "codestral-2405"].

Definition ai21_models : list string := ["jamba-large-1.6"].

(** The static fallback list, in the order the source extends it. *)
Definition static_patterns : list (string * string) :=
  ((λ m, ("google", m)) <$> google_models)
  ++ ((λ m, ("anthropic", m)) <$> anthropic_models)
  ++ ((λ m, ("meta", m)) <$> meta_models)
  ++ ((λ m, ("mistral-ai", m)) <$> mistral_models)
  ++ ((λ m, ("ai21", m)) <$> ai21_models).

(** One turn of the loop over [models]; [re.sub(r"@.*$", "", model_id)]
    keeps what precedes the first [@]. *)
Definition expand_one (expanded : gset (string * string))
    (pm : string * string) : gset (string * string) :=
  let '(pub, mid) := pm in
  let base_model := (break_at "@" mid).1 in
  let expanded :=
    if negb (String.eqb base_model mid)
    then expanded ∪ {[(pub, base_model)]} else expanded in
  if String.eqb pub "anthropic"
  then expanded ∪ {[(pub, mid)]} else expanded.

Definition expanded_set (models : list (string * string))
    : gset (string * string) :=
  foldl (λ expanded mid, expanded ∪ {[("mistral-ai", mid)]})
    (foldl expand_one (list_to_set models) models)
    mistral_specific_models.

(** [list(expanded)] is [elements]: the iteration order of a Python set is
    not specified, and nothing below relies on it. *)
Definition get_model_patterns (use_dynamic : bool) (run : run_result)
    : outcome (list (string * string)) :=
  if use_dynamic then
    match fetch_model_garden_models run with
    | Returns models =>
        if nonempty models then Returns (elements (expanded_set models))
        else Returns static_patterns
    | Raises e => Raises e
    | Exits c => Exits c
    end
  else Returns static_patterns.

(** *** discover_models *)

(** [check=True]: a non-zero return code raises [CalledProcessError],
    which the function turns into [sys.exit(1)]. *)
Definition get_access_token (run : run_result) : outcome string :=
  match run with
  | Completed returncode stdout _ =>
      if returncode =? 0 then Returns (strip stdout) else Exits 1
  | RunRaises e => Raises e
  end.

(** What a run of the sweep meets: the two [gcloud] calls, the network,
    and the order in which the pool hands back the submitted units. *)
Record world : Type := {
  token_run : run_result;
  garden_run : run_result;
  net : network;
  as_completed : list (string * string) → list (string * string)
}.

(** The loop over [as_completed(futures)]: [future.result()] hands back
    what the unit returned or raises what it raised. *)
Fixpoint collect (futures : list (outcome (option model_info)))
    (all_models : list model_info) : outcome (list model_info) :=
  match futures with
  | [] => Returns all_models
  | Returns result :: rest =>
      collect rest
        (match result with
         | Some r => all_models ++ [r]
         | None => all_models
         end)
  | Raises e :: _ => Raises e
  | Exits c :: _ => Exits c
  end.

(** The unit of work submitted for one pattern. *)
Definition unit_of_work (project access_token : string)
    (rs : option (list string)) (pm : string * string)
    : Http (option model_info) :=
  match rs with
  | Some (r :: rest) =>
      check_model_in_regions project pm.1 pm.2 access_token (r :: rest)
  | _ => check_model_availability project pm.1 pm.2 access_token None
  end.

Definition sweep (project access_token : string) (rs : option (list string))
    (w : world) (patterns : list (string * string))
    : outcome (list model_info) :=
  match
    collect
      ((λ pm, (unit_of_work project access_token rs pm (net w)).1)
         <$> as_completed w patterns) []
  with
  | Returns all_models => Returns (sort_by sort_key all_models)
  | Raises e => Raises e
  | Exits c => Exits c
  end.

Definition discover_models (project : string) (use_static : bool)
    (continent : option string) (w : world) : outcome (list model_info) :=
  match get_access_token (token_run w) with
  | Returns access_token =>
      let rs :=
        if truthy continent
        then CONTINENT_REGIONS !! default "" continent else None in
      let use_dynamic := negb use_static in
      match get_model_patterns use_dynamic (garden_run w) with
      | Returns patterns =>
          match
            if nonempty patterns then Returns patterns
            else get_model_patterns false (garden_run w)
          with
          | Returns patterns => sweep project access_token rs w patterns
          | Raises e => Raises e
          | Exits c => Exits c
          end
      | Raises e => Raises e
      | Exits c => Exits c
      end
  | Raises e => Raises e
  | Exits c => Exits c
  end.

(** *** get_current_project *)

(** [check=True]: a non-zero return code raises [CalledProcessError],
    which the function turns into [None]; so does an empty project. *)
Definition get_current_project (run : run_result) : outcome (option string) :=
  match run with
  | Completed returncode stdout _ =>
      if returncode =? 0 then
        let project := strip stdout in
        Returns (if truthy (Some project) then Some project else None)
      else Returns None
  | RunRaises e => Raises e
  end.

(** *** The summary and the grouping of the display *)

(** The inner dict of [publisher_counts], with its two fixed keys. *)
Record counts : Type := {
  available : Z;
  needs_action : Z
}.

(** One turn of the loop that fills [publisher_counts]. *)
Definition count_model (publisher_counts : gmap string counts)
    (m : model_info) : gmap string counts :=
  let pub := publisher m in
  let publisher_counts :=
    match publisher_counts !! pub with
    | None => <[pub := {| available := 0; needs_action := 0 |}]> publisher_counts
    | Some _ => publisher_counts
    end in
  if String.eqb (status m) "available" then
    alter (λ c, {| available := available c + 1;
                   needs_action := needs_action c |}) pub publisher_counts
  else
    alter (λ c, {| available := available c;
                   needs_action := needs_action c + 1 |}) pub publisher_counts.

Definition publisher_counts (all_models : list model_info)
    : gmap string counts :=
  foldl count_model ∅ all_models.

(** What the loop over the models prints, in both layouts, between the
    rules of the table: [row m] stands for the formatted line of the
    model [m], whose text is not modelled, and [blank] for the empty line
    printed when the publisher changes. *)
Inductive line : Type :=
  | blank
  | row (m : model_info).

Fixpoint display_rows (current_publisher : option string)
    (all_models : list model_info) : list line :=
  match all_models with
  | [] => []
  | m :: rest =>
      if bool_decide (Some (publisher m) ≠ current_publisher) then
        (match current_publisher with
         | Some _ => [blank]
         | None => []
         end)
        ++ row m :: display_rows (Some (publisher m)) rest
      else row m :: display_rows current_publisher rest
  end.

(** *** test_model *)

Definition test_model_request (pub mid project access_token : string)
    : request :=
  let base :=
    "https://aiplatform.googleapis.com/v1/projects/" +:+ project
      +:+ "/locations/global/publishers/" +:+ pub +:+ "/models/" +:+ mid in
  let '(u, body) :=
    if String.eqb pub "anthropic" then
      (base +:+ ":rawPredict",
       JObj [("anthropic_version", JStr "vertex-2023-10-16");
             ("max_tokens", JInt 100);
             ("messages", chat_messages "Say hello in one word!")])
    else if String.eqb pub "mistral-ai" then
      (base +:+ ":rawPredict",
       JObj [("model", JStr mid);
             ("max_tokens", JInt 100);
             ("messages", chat_messages "Say hello in one word!")])
    else
      (base +:+ ":generateContent",
       JObj [("contents",
              JList [JObj [("role", JStr "user");
                           ("parts",
                            JList [JObj [("text",
                                          JStr "Say hello in one word!")]])]])])
  in
  {| url := u;
     headers := [("Authorization", "Bearer " +:+ access_token);
                 ("Content-Type", "application/json")];
     payload := body;
     timeout := 30 |}.

(** What is printed is not modelled: after the call the function only
    prints, and whatever is raised while it does is caught. *)
Definition test_model (pub mid : string) (project : option string)
    (project_run token_run : run_result) : Http unit :=
  λ w,
    match
      if truthy project then Returns project
      else
        match get_current_project project_run with
        | Returns found => if truthy found then Returns found else Exits 1
        | Raises e => Raises e
        | Exits c => Exits c
        end
    with
    | Returns project =>
        match get_access_token token_run with
        | Returns access_token =>
            let req :=
              test_model_request pub mid (default "" project) access_token in
            try_except
              (let! response :=
                 requests_post (url req) (headers req) (payload req) 30 in
               ret tt)
              (λ e, ret tt) w
        | Raises e => (Raises e, [])
        | Exits c => (Exits c, [])
        end
    | Raises e => (Raises e, [])
    | Exits c => (Exits c, [])
    end.

(** *** main *)

(** The parsed command line. *)
Record cli_arguments : Type := {
  arg_test : option string;
  arg_json : bool;
  arg_static : bool;
  arg_continent : option string
}.

(** What a run of [main] that returns has done: tested one model, with
    the HTTP calls made, or discovered the models, printed as JSON or
    not. *)
Inductive action : Type :=
  | tested (calls : list request)
  | discovered (models : list model_info) (printed_json : bool).

Definition main (args : cli_arguments) (project_run : run_result)
    (w : world) : outcome action :=
  match get_current_project project_run with
  | Returns project =>
      if negb (truthy project) then Exits 1
      else if truthy (arg_test args) then
        let test := default "" (arg_test args) in
        if negb (str_in "/" test) then Exits 1
        else
          let '(pub, rest) := break_at "/" test in
          let mid :=
            match rest with
            | String _ after => after
            | EmptyString => EmptyString
            end in
          match
            test_model pub mid project project_run (token_run w) (net w)
          with
          | (Returns _, calls) => Returns (tested calls)
          | (Raises e, _) => Raises e
          | (Exits c, _) => Exits c
          end
      else
        match
          discover_models (default "" project) (arg_static args)
            (arg_continent args) w
        with
        | Returns models => Returns (discovered models (arg_json args))
        | Raises e => Raises e
        | Exits c => Exits c
        end
  | Raises e => Raises e
  | Exits c => Exits c
  end.

End VertexOnDemand.

(** ** gemini3pro-deepthink.py *)

Module GeminiDeepthink.
Import Py.

Definition DEFAULT_MODEL : string := "gemini-3-pro-preview".
Definition DEFAULT_TOKENS : Z := 65536.

(** The parsed command line. *)
Record arguments : Type := {
  prompt : option string;
  stdin : bool;
  model : string;
  api_key : option string;
  max_tokens : Z;
  thinking_level : string;
  thinking_budget : Z;
  no_thoughts : bool;
  no_search : bool
}.

(** Values stored in the [thinking_config] dict. *)
Inductive value : Type :=
  | VBool (b : bool)
  | VInt (n : Z)
  | VStr (s : string).

Record generation_config : Type := {
  maxOutputTokens : Z;
  thinkingConfig : gmap string value
}.

(** The payload: [contents] is the text of its single part, and [tools]
    is absent or lists the one tool, [googleSearch]. *)
Record request_payload : Type := {
  contents : string;
  generationConfig : generation_config;
  tools : option (list string)
}.

Definition get_api_key (arg_key : option string)
    (environ : gmap string string) : outcome string :=
  let key := or_else arg_key (environ !! "GEMINI_API_KEY") in
  match key with
  | Some k =>
      if negb (truthy key) || String.eqb k "1234" then Exits 1
      else Returns k
  | None => Exits 1
  end.

Definition thinking_config (args : arguments) : gmap string value :=
  let cfg : gmap string value :=
    {[ "includeThoughts" := VBool (negb (no_thoughts args)) ]} in
  if thinking_budget args >? 0
  then <["thinkingBudget" := VInt (thinking_budget args)]> cfg
  else <["thinkingLevel" := VStr (thinking_level args)]> cfg.

(** [main] up to the point where the request is sent: the prompt, the key
    and the payload. [tty] and [input] are [sys.stdin.isatty()] and what
    [sys.stdin.read()] gives. *)
Definition main_payload (args : arguments) (tty : bool) (input : string)
    (environ : gmap string string) : outcome (string * request_payload) :=
  let prompt_text :=
    if stdin args && negb tty then Some (strip input) else prompt args in
  if negb (truthy prompt_text) then Exits 1
  else
    match get_api_key (api_key args) environ with
    | Returns key =>
        Returns
          (key,
           {| contents := default "" prompt_text;
              generationConfig :=
                {| maxOutputTokens := max_tokens args;
                   thinkingConfig := thinking_config args |};
              tools :=
                if negb (no_search args) then Some ["googleSearch"]
                else None |})
    | Raises e => Raises e
    | Exits c => Exits c
    end.

End GeminiDeepthink.

(** ** Vocabulary of the properties *)

Module Props.
Import Py VertexOnDemand.

(** [kw] occurs in [body] when case is ignored: some stretch of [body]
    reads [kw] once lowered. *)
Definition occurs_ignoring_case (kw body : string) : Prop :=
  ∃ pre mid post, body = pre +:+ mid +:+ post ∧ lower mid = kw.

Definition mentions_eula (body : string) : Prop :=
  occurs_ignoring_case "agreement" body
  ∨ occurs_ignoring_case "eula" body
  ∨ occurs_ignoring_case "terms" body.

(** The three statuses a report entry may carry. *)
Definition report_statuses : list string :=
  ["available"; "needs_eula"; "needs_permission"].

(** [outranks s t]: status [s] wins over status [t]. *)
Inductive outranks : string → string → Prop :=
  | available_over_eula : outranks "available" "needs_eula"
  | available_over_permission : outranks "available" "needs_permission"
  | eula_over_permission : outranks "needs_eula" "needs_permission".

(** What a unit of work contributes: its value, and nothing when it did
    not return one. *)
Definition contribution {A} (o : outcome (option A)) : option A :=
  match o with
  | Returns v => v
  | _ => None
  end.

(** The status the probe of one region ends with, if any. *)
Definition regional_status (w : network) (project pub mid access_token : string)
    (region : string) : option string :=
  status <$>
    contribution
      (check_model_availability project pub mid access_token (Some region) w).1.

(** Strict order of the sort keys: by publisher, then by model, both by
    character code. *)
Definition key_lt (a b : string * string) : Prop := tuple_lt a b = true.

Definition entry_lt (a b : model_info) : Prop :=
  key_lt (sort_key a) (sort_key b).

(** The full resource name of a model, as the listing command prints
    it. *)
Definition resource_name (pub mid : string) : string :=
  "publishers/" +:+ pub +:+ "/models/" +:+ mid.

(** [mid] belongs to a family of language models: one of the patterns
    occurs in it once case is ignored as [re.IGNORECASE] does. *)
Definition llm_family (mid : string) : Prop :=
  ∃ pat pre post,
    pat ∈ LLM_PATTERNS ∧ fold_case mid = pre +:+ pat +:+ post.

(** The number of empty lines among the lines of the table, and the
    models its rows show. *)
Definition blank_lines (rows : list line) : nat :=
  length (omap (λ ln, match ln with blank => Some tt | row _ => None end)
            rows).

Definition shown_models (rows : list line) : list model_info :=
  omap (λ ln, match ln with row m => Some m | blank => None end) rows.

(** The publishers a report names. *)
Definition publishers_of (report : list model_info) : gset string :=
  list_to_set (publisher <$> report).

End Props.

(** ** Sample inputs *)

Module Samples.
Import Py VertexOnDemand.

(** A network on which a model is available in [us-central1] only and
    asks for the licence everywhere else. *)
Definition one_region_network : network :=
  λ req,
    if str_in "us-central1" (url req) then Response 200 "{}"
    else Response 403 "You must accept the EULA".

(** A network on which every probe of a Claude model times out, the
    Gemini 2.5 models answer, Mistral asks for its terms, Llama is not
    permitted and nothing else is found. *)
Definition flaky_network : network :=
  λ req,
    if str_in "claude" (url req) then Throws requests_Timeout
    else if str_in "gemini-2.5" (url req) then Response 200 "{}"
    else if str_in "/mistral-" (url req) then
      Response 403 "Accept the Terms of Service first"
    else if str_in "llama" (url req) then Response 403 "Permission denied"
    else Response 404 "Not Found".

(** A run without [gcloud alpha]: the token is obtained, the listing
    command is missing, and the pool hands the units back in reverse. *)
Definition sample_world : world :=
  {| token_run := Completed 0 "ya29.token" "";
     garden_run := RunRaises FileNotFoundError;
     net := flaky_network;
     as_completed := reverse |}.

(** The same run with the units handed back in submission order. *)
Definition sample_world_in_order : world :=
  {| token_run := Completed 0 "ya29.token" "";
     garden_run := RunRaises FileNotFoundError;
     net := flaky_network;
     as_completed := λ l, l |}.

(** [gemini3pro-deepthink.py -p "Why is the sky blue?" -b 4000] *)
Definition budget_arguments : GeminiDeepthink.arguments :=
  {| GeminiDeepthink.prompt := Some "Why is the sky blue?";
     GeminiDeepthink.stdin := false;
     GeminiDeepthink.model := GeminiDeepthink.DEFAULT_MODEL;
     GeminiDeepthink.api_key := None;
     GeminiDeepthink.max_tokens := GeminiDeepthink.DEFAULT_TOKENS;
     GeminiDeepthink.thinking_level := "high";
     GeminiDeepthink.thinking_budget := 4000;
     GeminiDeepthink.no_thoughts := false;
     GeminiDeepthink.no_search := false |}.

(** The same command line without [-b]. *)
Definition level_arguments : GeminiDeepthink.arguments :=
  {| GeminiDeepthink.prompt := Some "Why is the sky blue?";
     GeminiDeepthink.stdin := false;
     GeminiDeepthink.model := GeminiDeepthink.DEFAULT_MODEL;
     GeminiDeepthink.api_key := None;
     GeminiDeepthink.max_tokens := GeminiDeepthink.DEFAULT_TOKENS;
     GeminiDeepthink.thinking_level := "high";
     GeminiDeepthink.thinking_budget := 0;
     GeminiDeepthink.no_thoughts := false;
     GeminiDeepthink.no_search := false |}.

Definition sample_environ : gmap string string :=
  {[ "GEMINI_API_KEY" := "AIza-sample" ]}.

(** A run on a machine that is not logged in. *)
Definition world_without_login : world :=
  {| token_run := Completed 1 "" "ERROR: no credentialed accounts";
     garden_run := RunRaises FileNotFoundError;
     net := flaky_network;
     as_completed := reverse |}.

(** A run in which the listing command cannot be executed. *)
Definition world_without_listing : world :=
  {| token_run := Completed 0 "ya29.token" "";
     garden_run := RunRaises (other_Exception "PermissionError");
     net := flaky_network;
     as_completed := reverse |}.

(** A run in which no endpoint knows any model. *)
Definition world_without_models : world :=
  {| token_run := Completed 0 "ya29.token" "";
     garden_run := RunRaises FileNotFoundError;
     net := λ _, Response 404 "Not Found";
     as_completed := reverse |}.

(** The UTF-8 bytes of two blank characters that are not ASCII, the
    no-break space U+00A0 and the em space U+2003, and of the long s
    U+017F. *)
Definition no_break_space : string :=
  String (ascii_of_nat 194) (String (ascii_of_nat 160) EmptyString).

Definition em_space : string :=
  String (ascii_of_nat 226)
    (String (ascii_of_nat 128) (String (ascii_of_nat 131) EmptyString)).

Definition long_s : string :=
  String (ascii_of_nat 197) (String (ascii_of_nat 191) EmptyString).

(** The end of a line of output. *)
Definition line_end : string := String (ascii_of_nat 10) EmptyString.

(** A report of three models of two publishers. *)
Definition sample_report : list model_info :=
  [ {| publisher := "anthropic"; model_id := "claude-opus-4";
       status := "needs_eula"; located := endpoint "global";
       requires_eula := true |};
    {| publisher := "google"; model_id := "gemini-2.5-flash";
       status := "available"; located := endpoint "global";
       requires_eula := false |};
    {| publisher := "google"; model_id := "gemini-2.5-pro";
       status := "needs_permission"; located := endpoint "global";
       requires_eula := false |} ].

End Samples.

(** ** Strings *)

Import Py VertexOnDemand Props Samples.

Lemma app_cons (c : ascii) (a b : string) :
  String c a +:+ b = String c (a +:+ b).
Proof. reflexivity. Qed.

Lemma app_empty (b : string) : "" +:+ b = b.
Proof. reflexivity. Qed.

Lemma lower_app (a b : string) : lower (a +:+ b) = lower a +:+ lower b.
Proof.
  induction a as [|c a IH]; [done|].
  rewrite app_cons. simpl. by rewrite app_cons, IH.
Qed.

Lemma lower_split (s x y : string) :
  lower s = x +:+ y → ∃ a b, s = a +:+ b ∧ lower a = x ∧ lower b = y.
Proof.
  revert s. induction x as [|c x IH]; intros s Hs.
  - by exists "", s.
  - destruct s as [|d s]; [done|].
    rewrite app_cons in Hs. simpl in Hs. injection Hs as Hc Hs.
    destruct (IH _ Hs) as (a & b & -> & Ha & Hb).
    exists (String d a), b. simpl. by rewrite Hc, Ha.
Qed.

Lemma prefix_cons (c d : ascii) (n h : string) :
  String.prefix (String c n) (String d h)
  = if ascii_dec c d then String.prefix n h else false.
Proof. reflexivity. Qed.

Lemma prefix_app (n h : string) :
  String.prefix n h = true ↔ ∃ post, h = n +:+ post.
Proof.
  revert h. induction n as [|c n IH]; intros h.
  - split; [intros _; by exists h|]. by destruct h.
  - destruct h as [|d h].
    + split; [done|]. by intros [? ?].
    + rewrite prefix_cons. destruct (ascii_dec c d) as [->|Hne].
      * rewrite IH. split; intros [post Hp]; exists post.
        -- by rewrite app_cons, Hp.
        -- rewrite app_cons in Hp. by injection Hp.
      * split; [done|]. intros [post Hp].
        rewrite app_cons in Hp. by injection Hp.
Qed.

Lemma str_in_nil (n : string) : str_in n "" = String.prefix n "" || false.
Proof. reflexivity. Qed.

Lemma str_in_cons (n : string) (d : ascii) (h : string) :
  str_in n (String d h) = String.prefix n (String d h) || str_in n h.
Proof. reflexivity. Qed.

Lemma str_in_app (n h : string) :
  str_in n h = true ↔ ∃ pre post, h = pre +:+ n +:+ post.
Proof.
  induction h as [|d h IH].
  - rewrite str_in_nil, orb_false_r, prefix_app. split.
    + intros [post Hp]. by exists "", post.
    + intros ([|? ?] & post & Hp); [by exists post|done].
  - rewrite str_in_cons, orb_true_iff, prefix_app, IH. split.
    + intros [[post Hp]|(pre & post & Hp)].
      * by exists "", post.
      * exists (String d pre), post. by rewrite app_cons, Hp.
    + intros ([|c pre] & post & Hp).
      * left. by exists post.
      * right. exists pre, post. rewrite app_cons in Hp. by injection Hp.
Qed.

(** The test of the source, [kw in text.lower()], is the occurrence of
    [kw] with case ignored. *)
Lemma str_in_lower (kw body : string) :
  str_in kw (lower body) = true ↔ occurs_ignoring_case kw body.
Proof.
  rewrite str_in_app. split.
  - intros (pre & post & H).
    destruct (lower_split _ _ _ H) as (a & b & -> & _ & Hb).
    destruct (lower_split _ _ _ Hb) as (m & p & -> & Hm & _).
    by exists a, m, p.
  - intros (pre & mid & post & -> & <-).
    exists (lower pre), (lower post). by rewrite !lower_app.
Qed.

Lemma mentions_eula_test (body : string) :
  str_in "agreement" (lower body) || str_in "eula" (lower body)
    || str_in "terms" (lower body) = true
  ↔ mentions_eula body.
Proof.
  unfold mentions_eula. rewrite !orb_true_iff, !str_in_lower. tauto.
Qed.

(** ** The probe *)

Lemma probe_request_eta (project pub mid access_token : string)
    (region : option string) :
  let req := probe_request project pub mid access_token region in
  {| url := url req; headers := headers req; payload := payload req;
     timeout := 15 |} = req.
Proof.
  unfold probe_request.
  destruct (String.eqb pub "anthropic"); [done|].
  by destruct (String.eqb pub "mistral-ai").
Qed.

(** Unfolds one run of the probe and splits on the reply the way the
    source does. *)
Ltac unfold_probe :=
  unfold check_model_availability, try_except, bind, requests_post, ret;
  rewrite !probe_request_eta.

Ltac split_reply net :=
  match goal with
  | |- context [net ?req] =>
      let code := fresh "code" in
      let body := fresh "body" in
      let e := fresh "e" in
      destruct (net req) as [code body|e] eqn:?;
      [ destruct (code =? 200) eqn:?;
        [ | destruct (code =? 403) eqn:?;
            [ destruct (str_in "agreement" (lower body)
                        || str_in "eula" (lower body)
                        || str_in "terms" (lower body)) eqn:?
            | destruct (code =? 404) eqn:? ] ]
      | destruct e ]
  end;
  simpl.

Ltac run_probe net := unfold_probe; split_reply net.

(** A probe never raises and makes one call; what it returns names the
    model it was asked about. *)
Lemma probe_summary (w : network) (project pub mid access_token : string)
    (region : option string) :
  ∃ v,
    check_model_availability project pub mid access_token region w
    = (Returns v, [probe_request project pub mid access_token region])
    ∧ ∀ r, v = Some r →
        publisher r = pub ∧ model_id r = mid
        ∧ status r ∈ report_statuses
        ∧ located r = endpoint (probe_location region)
        ∧ requires_eula r
          = not_first_party pub || String.eqb (status r) "needs_eula".
Proof.
  run_probe w; eexists; (split; [reflexivity|]); intros r Hr;
    try discriminate; injection Hr as <-; simpl;
    rewrite ?orb_false_r, ?orb_true_r;
    (repeat split; try done); unfold report_statuses; set_solver.
Qed.

(** A call that raises leaves the probe without a result. *)
Lemma probe_raises_absent (w : network)
    (project pub mid access_token : string) (region : option string)
    (e : exn) :
  w (probe_request project pub mid access_token region) = Throws e →
  (check_model_availability project pub mid access_token region w).1
  = Returns None.
Proof. intros He. unfold_probe. rewrite He. by destruct e. Qed.

(** The probe only looks at the reply to its own request. *)
Lemma probe_ext (w1 w2 : network) (project pub mid access_token : string)
    (region : option string) :
  w1 (probe_request project pub mid access_token region)
  = w2 (probe_request project pub mid access_token region) →
  check_model_availability project pub mid access_token region w1
  = check_model_availability project pub mid access_token region w2.
Proof.
  intros H. unfold_probe. rewrite H. by split_reply w2.
Qed.

(** C1. One probe makes exactly one HTTP call, with no retry, and its
    result follows from the status code of the reply: 200 gives
    "available"; 403 gives "needs_eula" when the body mentions
    "agreement", "eula" or "terms" in any letter case, and
    "needs_permission" otherwise; 404, any other code, a timeout and any
    other exception give no result. *)
Theorem check_model_availability_classification
    (w : network) (project pub mid access_token : string)
    (region : option string) :
  let req := probe_request project pub mid access_token region in
  let run := check_model_availability project pub mid access_token region w in
  run.2 = [req]
  ∧ (∀ body, w req = Response 200 body →
       ∃ r, run.1 = Returns (Some r) ∧ status r = "available")
  ∧ (∀ body, w req = Response 403 body → mentions_eula body →
       ∃ r, run.1 = Returns (Some r) ∧ status r = "needs_eula")
  ∧ (∀ body, w req = Response 403 body → ¬ mentions_eula body →
       ∃ r, run.1 = Returns (Some r) ∧ status r = "needs_permission")
  ∧ (∀ body, w req = Response 404 body → run.1 = Returns None)
  ∧ (∀ code body, w req = Response code body →
       code ≠ 200 → code ≠ 403 → run.1 = Returns None)
  ∧ (w req = Throws requests_Timeout → run.1 = Returns None)
  ∧ (∀ e, w req = Throws e → run.1 = Returns None).
Proof.
  intros req run. subst req run.
  run_probe w.
  all: (split; [reflexivity|]).
  all: repeat match goal with
           | |- _ ∧ _ => split
           | |- _ => intros
           end;
    simplify_eq; try done; try (eexists; split; reflexivity); try lia;
    try (exfalso;
         match goal with
         | H : _ || _ || _ = _ |- _ =>
             first [ apply mentions_eula_test in H; tauto
                   | apply not_true_iff_false in H;
                     rewrite mentions_eula_test in H; tauto ]
         end).
Qed.

Lemma check_model_availability_classification_witness :
  (∃ r,
     (check_model_availability "p" "anthropic" "claude-opus-4" "t" None
        (λ _, Response 403 "You must accept the EULA")).1
     = Returns (Some r) ∧ status r = "needs_eula")
  ∧ (∃ r,
       (check_model_availability "p" "anthropic" "claude-opus-4" "t" None
          (λ _, Response 403 "insufficient permissions")).1
       = Returns (Some r) ∧ status r = "needs_permission")
  ∧ (check_model_availability "p" "anthropic" "claude-opus-4" "t"
       (Some "us-east5") (λ _, Response 404 "")).1 = Returns None
  ∧ (check_model_availability "p" "anthropic" "claude-opus-4" "t"
       (Some "us-east5") (λ _, Throws requests_Timeout)).1 = Returns None.
Proof.
  split; [|split; [|split]].
  - apply (check_model_availability_classification
             (λ _, Response 403 "You must accept the EULA")
             "p" "anthropic" "claude-opus-4" "t" None)
      with (body := "You must accept the EULA"); [reflexivity|].
    right; left. by exists "You must accept the ", "EULA", "".
  - apply (check_model_availability_classification
             (λ _, Response 403 "insufficient permissions")
             "p" "anthropic" "claude-opus-4" "t" None)
      with (body := "insufficient permissions"); [reflexivity|].
    intros H. apply mentions_eula_test in H. vm_compute in H. discriminate.
  - apply (check_model_availability_classification
             (λ _, Response 404 "")
             "p" "anthropic" "claude-opus-4" "t" (Some "us-east5"))
      with (body := ""). reflexivity.
  - apply (check_model_availability_classification
             (λ _, Throws requests_Timeout)
             "p" "anthropic" "claude-opus-4" "t" (Some "us-east5")).
    reflexivity.
Defined.

(** ** The region aggregator *)

Section aggregator.
Context (w : network) (project pub mid access_token : string).

Local Abbreviation probe region :=
  (check_model_availability project pub mid access_token (Some region) w).
Local Abbreviation st := (regional_status w project pub mid access_token).
Local Abbreviation step :=
  (λ (b : buckets) (region : string),
     file_region region (contribution (probe region).1) b).

(** The loop probes every region once, in order, and cannot raise. *)
Lemma probe_regions_run (rs : list string) (b : buckets) :
  probe_regions project pub mid access_token rs b w
  = (Returns (foldl step b rs),
     (λ r, probe_request project pub mid access_token (Some r)) <$> rs).
Proof.
  revert b. induction rs as [|region rs IH]; intros b; [done|].
  simpl. unfold bind at 1.
  destruct (probe_summary w project pub mid access_token (Some region))
    as (v & -> & _).
  by rewrite IH.
Qed.

Lemma file_region_bucket (proj : buckets → list string) (s : string)
    (region : string) (result : option model_info) (b : buckets) :
  (proj, s) ∈ [(available_regions, "available");
               (needs_eula_regions, "needs_eula");
               (needs_perm_regions, "needs_permission")] →
  proj (file_region region result b)
  = proj b ++ if decide (status <$> result = Some s) then [region] else [].
Proof.
  intros Hin. unfold file_region.
  destruct result as [r|]; simpl; [|by rewrite app_nil_r].
  destruct (String.eqb_spec (status r) "available") as [E|E];
    [|destruct (String.eqb_spec (status r) "needs_eula") as [E'|E'];
      [|destruct (String.eqb_spec (status r) "needs_permission") as [E''|E'']]].
  all: repeat (apply elem_of_cons in Hin as [Hin|Hin]; [simplify_eq|]).
  all: try (by apply elem_of_nil in Hin).
  all: simpl; case_decide; simplify_eq; rewrite ?app_nil_r; try done.
  all: congruence.
Qed.

Lemma fold_bucket (proj : buckets → list string) (s : string)
    (rs : list string) (b : buckets) :
  (proj, s) ∈ [(available_regions, "available");
               (needs_eula_regions, "needs_eula");
               (needs_perm_regions, "needs_permission")] →
  proj (foldl step b rs) = proj b ++ filter (λ r, st r = Some s) rs.
Proof.
  intros Hin. revert b. induction rs as [|region rs IH]; intros b.
  - by rewrite app_nil_r.
  - simpl. rewrite IH, (file_region_bucket proj s) by done.
    rewrite filter_cons. unfold regional_status.
    rewrite <- app_assoc. by repeat case_decide.
Qed.

(** What the aggregator returns, bucket by bucket. *)
Lemma check_model_in_regions_run (rs : list string) :
  let attained s := filter (λ r, st r = Some s) rs in
  check_model_in_regions project pub mid access_token rs w
  = (Returns
       (if nonempty (attained "available") then
          Some {| publisher := pub; model_id := mid; status := "available";
                  located := regions (attained "available");
                  requires_eula := not_first_party pub |}
        else if nonempty (attained "needs_eula") then
          Some {| publisher := pub; model_id := mid; status := "needs_eula";
                  located := regions (attained "needs_eula");
                  requires_eula := not_first_party pub |}
        else if nonempty (attained "needs_permission") then
          Some {| publisher := pub; model_id := mid;
                  status := "needs_permission";
                  located := regions (attained "needs_permission");
                  requires_eula := not_first_party pub |}
        else None),
     (λ r, probe_request project pub mid access_token (Some r)) <$> rs).
Proof.
  intros attained. unfold check_model_in_regions, bind.
  rewrite probe_regions_run.
  rewrite (fold_bucket available_regions "available") by set_solver.
  rewrite (fold_bucket needs_eula_regions "needs_eula") by set_solver.
  rewrite (fold_bucket needs_perm_regions "needs_permission") by set_solver.
  simpl. fold (attained "available") (attained "needs_eula")
    (attained "needs_permission").
  destruct (nonempty (attained "available")); simpl;
    [by rewrite app_nil_r|].
  destruct (nonempty (attained "needs_eula")); simpl;
    [by rewrite app_nil_r|].
  destruct (nonempty (attained "needs_permission")); simpl;
    by rewrite ?app_nil_r.
Qed.

End aggregator.

Lemma nonempty_filter {A} (P : A → Prop) `{∀ x, Decision (P x)} (l : list A) :
  nonempty (filter P l) = true ↔ ∃ x, x ∈ l ∧ P x.
Proof.
  split.
  - destruct (filter P l) as [|x l'] eqn:E; [done|]. intros _.
    exists x. apply and_comm, (list_elem_of_filter P). rewrite E. by left.
  - intros (x & Hx & HP).
    assert (x ∈ filter P l) as Hin by by apply list_elem_of_filter.
    by destruct (filter P l); [apply elem_of_nil in Hin|].
Qed.

Lemma empty_filter {A} (P : A → Prop) `{∀ x, Decision (P x)} (l : list A) :
  nonempty (filter P l) = false ↔ ∀ x, x ∈ l → ¬ P x.
Proof.
  rewrite <- not_true_iff_false, nonempty_filter. split.
  - intros Hno x Hx HP. apply Hno. by exists x.
  - intros Hall (x & Hx & HP). by apply (Hall x).
Qed.

(** A region ends with no status or with one of the three. *)
Lemma regional_status_cases (w : network)
    (project pub mid access_token region : string) (s : string) :
  regional_status w project pub mid access_token region = Some s →
  s ∈ report_statuses.
Proof.
  unfold regional_status.
  destruct (probe_summary w project pub mid access_token (Some region))
    as (v & -> & Hv).
  destruct v as [r|]; simpl; [|done]. intros [= <-].
  by destruct (Hv r eq_refl) as (_ & _ & ? & _).
Qed.

(** C2. The region aggregator probes each region once, in order. When no
    region yields a status it returns nothing. Otherwise it returns a
    report for the model whose status is attained by some region and is
    outranked by no status attained in any region, under
    available > needs_eula > needs_permission, and whose regions are
    exactly the regions that attained that status, in input order. *)
Theorem check_model_in_regions_precedence
    (w : network) (project pub mid access_token : string)
    (rs : list string) :
  let st := regional_status w project pub mid access_token in
  let run := check_model_in_regions project pub mid access_token rs w in
  run.2 = (λ r, probe_request project pub mid access_token (Some r)) <$> rs
  ∧ ((∀ r, r ∈ rs → st r = None) → run.1 = Returns None)
  ∧ ((∃ r, r ∈ rs ∧ st r ≠ None) →
     ∃ rep,
       run.1 = Returns (Some rep)
       ∧ publisher rep = pub ∧ model_id rep = mid
       ∧ status rep ∈ report_statuses
       ∧ (∃ r, r ∈ rs ∧ st r = Some (status rep))
       ∧ (∀ s r, outranks s (status rep) → r ∈ rs → st r ≠ Some s)
       ∧ located rep = regions (filter (λ r, st r = Some (status rep)) rs)).
Proof.
  intros st run. subst run. rewrite check_model_in_regions_run. simpl.
  split; [done|]. fold st. split.
  - intros Hnone.
    rewrite !(proj2 (empty_filter _ _)); [done|..];
      intros r Hr; rewrite (Hnone r Hr); done.
  - intros (r0 & Hr0 & Hst0).
    destruct (nonempty (filter (λ r, st r = Some "available") rs)) eqn:Ea;
      [|destruct (nonempty (filter (λ r, st r = Some "needs_eula") rs))
          eqn:Ee;
        [|destruct (nonempty
                      (filter (λ r, st r = Some "needs_permission") rs))
            eqn:Ep]].
    + eexists. split; [reflexivity|]. simpl.
      apply nonempty_filter in Ea.
      repeat split; try done; [by repeat constructor|]. intros s r Hs. inversion Hs.
    + eexists. split; [reflexivity|]. simpl.
      apply nonempty_filter in Ee. rewrite empty_filter in Ea.
      repeat split; try done; [by repeat constructor|].
      intros s r Hs Hr. inversion Hs; subst. by apply Ea.
    + eexists. split; [reflexivity|]. simpl.
      apply nonempty_filter in Ep. rewrite empty_filter in Ea, Ee.
      repeat split; try done; [by repeat constructor|].
      intros s r Hs Hr. inversion Hs; subst; [by apply Ea|by apply Ee].
    + exfalso. rewrite empty_filter in Ea, Ee, Ep.
      destruct (st r0) as [s|] eqn:Es; [|done].
      pose proof (regional_status_cases _ _ _ _ _ _ _ Es) as Hs.
      unfold report_statuses in Hs.
      repeat (apply elem_of_cons in Hs as [->|Hs]);
        [by eapply Ea|by eapply Ee|by eapply Ep|by apply elem_of_nil in Hs].
Qed.

Lemma check_model_in_regions_precedence_witness :
  let st := regional_status one_region_network "p" "meta" "llama" "t" in
  let run :=
    check_model_in_regions "p" "meta" "llama" "t"
      ["us-east1"; "us-central1"] one_region_network in
  (∃ rep,
     run.1 = Returns (Some rep)
     ∧ publisher rep = "meta" ∧ model_id rep = "llama"
     ∧ status rep ∈ report_statuses
     ∧ (∃ r, r ∈ ["us-east1"; "us-central1"] ∧ st r = Some (status rep))
     ∧ (∀ s r, outranks s (status rep) →
          r ∈ ["us-east1"; "us-central1"] → st r ≠ Some s)
     ∧ located rep
       = regions
           (filter (λ r, st r = Some (status rep))
              ["us-east1"; "us-central1"]))
  ∧ (check_model_in_regions "p" "meta" "llama" "t"
       ["us-east1"; "us-central1"] (λ _, Response 404 "")).1 = Returns None.
Proof.
  split.
  - apply (check_model_in_regions_precedence one_region_network
             "p" "meta" "llama" "t" ["us-east1"; "us-central1"]).
    exists "us-east1". split; [by left|]. vm_compute. discriminate.
  - apply (check_model_in_regions_precedence (λ _, Response 404 "")
             "p" "meta" "llama" "t" ["us-east1"; "us-central1"]).
    intros r _. reflexivity.
Defined.

(** ** The licence flag *)

Lemma not_first_party_true (pub : string) :
  not_first_party pub = true ↔ pub ≠ "google".
Proof.
  unfold not_first_party. rewrite negb_true_iff, bool_decide_eq_false.
  rewrite list_elem_of_singleton. done.
Qed.

(** C3, as stated, fails: for the first-party publisher a 403 reply that
    mentions the licence yields a probe result with [requires_eula] true,
    so the flag is not a function of the publisher alone. *)
Lemma requires_eula_static_fails :
  ¬ (∀ (w : network) (project pub mid access_token : string)
       (region : option string) (r : model_info),
       (check_model_availability project pub mid access_token region w).1
       = Returns (Some r) →
       (requires_eula r = true ↔ pub ≠ "google")).
Proof.
  intros H.
  specialize (H (λ _, Response 403 "You must accept the EULA")
                "p" "google" "gemini-2.5-pro" "t" None _ eq_refl).
  simpl in H. by apply H.
Qed.

(** C3, amended. An entry of the region aggregator has [requires_eula]
    true exactly when the publisher is not "google", whatever the probes
    returned. A probe result has [requires_eula] true exactly when the
    publisher is not "google" or its status is "needs_eula". *)
Theorem requires_eula_by_publisher
    (w : network) (project pub mid access_token : string) :
  (∀ rs rep,
     (check_model_in_regions project pub mid access_token rs w).1
     = Returns (Some rep) →
     (requires_eula rep = true ↔ pub ≠ "google"))
  ∧ (∀ region r,
       (check_model_availability project pub mid access_token region w).1
       = Returns (Some r) →
       (requires_eula r = true ↔ pub ≠ "google" ∨ status r = "needs_eula")).
Proof.
  split.
  - intros rs rep. rewrite check_model_in_regions_run. simpl.
    repeat match goal with
           | |- context [if ?b then _ else _] => destruct b
           end;
      intros [= <-]; try done; simpl; apply not_first_party_true.
  - intros region r.
    destruct (probe_summary w project pub mid access_token region)
      as (v & -> & Hv).
    simpl. intros [= ->].
    destruct (Hv r eq_refl) as (_ & _ & _ & _ & ->).
    rewrite orb_true_iff, not_first_party_true, String.eqb_eq. done.
Qed.

Lemma requires_eula_by_publisher_witness :
  (∃ rep,
     (check_model_in_regions "p" "google" "gemini-2.5-pro" "t"
        ["us-east1"; "us-central1"] one_region_network).1
     = Returns (Some rep)
     ∧ (requires_eula rep = true ↔ "google" ≠ "google"))
  ∧ (∃ r,
       (check_model_availability "p" "google" "gemini-2.5-pro" "t" None
          (λ _, Response 403 "You must accept the EULA")).1
       = Returns (Some r)
       ∧ (requires_eula r = true
          ↔ "google" ≠ "google" ∨ status r = "needs_eula")).
Proof.
  split.
  - eexists. split; [reflexivity|].
    by apply (requires_eula_by_publisher one_region_network
                "p" "google" "gemini-2.5-pro" "t")
      with (rs := ["us-east1"; "us-central1"]).
  - eexists. split; [reflexivity|].
    by apply (requires_eula_by_publisher
                (λ _, Response 403 "You must accept the EULA")
                "p" "google" "gemini-2.5-pro" "t") with (region := None).
Defined.

(** ** The order of the sort keys *)

Lemma compare_refl (a : string) : String.compare a a = Eq.
Proof.
  induction a as [|c a IH]; simpl; [done|].
  unfold Ascii.compare. by rewrite N.compare_refl.
Qed.

Lemma ltb_le (a b : string) :
  String.ltb a b = true ↔ String.le a b ∧ a ≠ b.
Proof.
  unfold String.le, String.ltb, String.leb.
  destruct (String.compare a b) eqn:E; simpl; split; try done.
  - intros [_ Hne]. destruct Hne. by apply String.compare_eq_iff.
  - intros _. split; [done|]. intros ->. by rewrite compare_refl in E.
  - by intros [? _].
Qed.

Lemma ltb_irrefl (a : string) : String.ltb a a = false.
Proof. apply not_true_iff_false. rewrite ltb_le. by intros [_ ?]. Qed.

Lemma ltb_trans (a b c : string) :
  String.ltb a b = true → String.ltb b c = true → String.ltb a c = true.
Proof.
  rewrite !ltb_le. intros [Hab Hne] [Hbc Hne']. split; [by etrans|].
  intros ->. apply Hne. by apply (anti_symm String.le).
Qed.

Lemma ltb_total (a b : string) :
  a ≠ b → String.ltb a b = true ∨ String.ltb b a = true.
Proof.
  intros Hne. rewrite !ltb_le.
  destruct (total String.le a b); [left|right]; done.
Qed.

Lemma key_lt_irrefl (a : string * string) : ¬ key_lt a a.
Proof.
  unfold key_lt, tuple_lt. by rewrite String.eqb_refl, ltb_irrefl.
Qed.

Lemma key_lt_trans (a b c : string * string) :
  key_lt a b → key_lt b c → key_lt a c.
Proof.
  unfold key_lt, tuple_lt.
  destruct (String.eqb_spec a.1 b.1) as [E1|E1],
    (String.eqb_spec b.1 c.1) as [E2|E2],
    (String.eqb_spec a.1 c.1) as [E3|E3];
    try congruence; try apply ltb_trans.
  rewrite E3. intros H1 H2.
  pose proof (ltb_trans _ _ _ H1 H2) as H. by rewrite ltb_irrefl in H.
Qed.

Lemma key_lt_total (a b : string * string) :
  a ≠ b → key_lt a b ∨ key_lt b a.
Proof.
  destruct a as [a1 a2], b as [b1 b2]. unfold key_lt, tuple_lt. simpl.
  intros Hne. rewrite (String.eqb_sym b1 a1).
  destruct (String.eqb_spec a1 b1) as [->|E]; [|by apply ltb_total].
  apply ltb_total. congruence.
Qed.

Global Instance key_lt_transitive : Transitive key_lt.
Proof. intros a b c. apply key_lt_trans. Qed.

Global Instance entry_lt_transitive : Transitive entry_lt.
Proof. intros a b c. apply key_lt_trans. Qed.

(** ** Sorting *)

Section sorting.
Context {A : Type} (key : A → string * string).

Local Abbreviation not_after := (λ x y : A, ¬ key_lt (key y) (key x)).
Local Abbreviation before := (λ x y : A, key_lt (key x) (key y)).

Lemma sort_insert_Permutation (x : A) (l : list A) :
  sort_insert key x l ≡ₚ x :: l.
Proof.
  induction l as [|y l IH]; simpl; [done|].
  destruct (tuple_lt (key y) (key x)); [|done].
  rewrite IH. apply perm_swap.
Qed.

Lemma sort_by_Permutation (l : list A) : sort_by key l ≡ₚ l.
Proof.
  induction l as [|x l IH]; simpl; [done|].
  by rewrite sort_insert_Permutation, IH.
Qed.

Lemma sort_insert_Sorted (x : A) (l : list A) :
  Sorted not_after l → Sorted not_after (sort_insert key x l).
Proof.
  induction 1 as [|y l Hl IH Hhd]; simpl; [by repeat constructor|].
  destruct (tuple_lt (key y) (key x)) eqn:E.
  - constructor; [done|].
    destruct Hhd as [|z l Hyz]; simpl.
    + constructor. intros Hxy. apply (key_lt_irrefl (key x)).
      by etrans.
    + destruct (tuple_lt (key z) (key x)) eqn:E'; constructor; [done|].
      intros Hxy. apply (key_lt_irrefl (key x)). by etrans.
  - constructor; [by constructor|]. constructor.
    unfold key_lt. by rewrite E.
Qed.

Lemma sort_by_Sorted (l : list A) : Sorted not_after (sort_by key l).
Proof.
  induction l as [|x l IH]; simpl; [constructor|].
  by apply sort_insert_Sorted.
Qed.

(** With pairwise distinct keys the order is strict. *)
Lemma Sorted_distinct (l : list A) :
  NoDup (key <$> l) → Sorted not_after l → Sorted before l.
Proof.
  induction l as [|x l IH]; [constructor|].
  rewrite fmap_cons, NoDup_cons. intros [Hx Hl] Hs.
  apply Sorted_inv in Hs as [Hs Hhd]. constructor; [by apply IH|].
  destruct Hhd as [|y l Hxy]; constructor.
  destruct (key_lt_total (key x) (key y)) as [?|?]; try done.
  intros E. apply Hx. rewrite E, fmap_cons. by left.
Qed.

Lemma sort_by_StronglySorted (l : list A) :
  NoDup (key <$> l) → StronglySorted before (sort_by key l).
Proof.
  intros Hl.
  assert (Transitive before) by (intros x y z; apply key_lt_trans).
  apply Sorted_StronglySorted; [done|].
  apply Sorted_distinct; [|apply sort_by_Sorted].
  by rewrite sort_by_Permutation.
Qed.

(** The sorted list does not depend on the order of the input. *)
Lemma sort_by_unique (l1 l2 : list A) :
  NoDup (key <$> l1) → l1 ≡ₚ l2 → sort_by key l1 = sort_by key l2.
Proof.
  intros Hl Hp.
  apply (StronglySorted_unique_strong before).
  - intros x y _ _ Hxy Hyx. destruct (key_lt_irrefl (key x)). by etrans.
  - by apply sort_by_StronglySorted.
  - apply sort_by_StronglySorted. by rewrite <- Hp.
  - by rewrite !sort_by_Permutation.
Qed.

End sorting.

(** ** The sweep *)

(** A unit of work never raises; what it returns is an entry for the
    pattern it was given, with one of the three statuses. *)
Lemma unit_of_work_summary (w : network) (project access_token : string)
    (rs : option (list string)) (pm : string * string) :
  ∃ v,
    (unit_of_work project access_token rs pm w).1 = Returns v
    ∧ ∀ r, v = Some r → sort_key r = pm ∧ status r ∈ report_statuses.
Proof.
  destruct pm as [pub mid].
  assert (∃ v,
    (check_model_availability project pub mid access_token None w).1
    = Returns v
    ∧ ∀ r, v = Some r → sort_key r = (pub, mid) ∧ status r ∈ report_statuses)
    as Hprobe.
  { destruct (probe_summary w project pub mid access_token None)
      as (v & -> & Hv).
    exists v. split; [done|]. intros r Hr.
    destruct (Hv r Hr) as (Hp & Hm & Hs & _).
    unfold sort_key. by rewrite Hp, Hm. }
  unfold unit_of_work. destruct rs as [[|r0 rs]|]; simpl; try done.
  rewrite check_model_in_regions_run. simpl. eexists. split; [done|].
  intros r.
  repeat match goal with
         | |- context [if ?b then _ else _] => destruct b
         end;
    intros [= <-]; (split; [done|]); simpl; unfold report_statuses;
    repeat constructor.
Qed.

(** A unit of work only looks at the replies of the network. *)
Lemma unit_of_work_ext (w1 w2 : network) (project access_token : string)
    (rs : option (list string)) (pm : string * string) :
  (∀ req, w1 req = w2 req) →
  (unit_of_work project access_token rs pm w1).1
  = (unit_of_work project access_token rs pm w2).1.
Proof.
  intros Hw. unfold unit_of_work.
  destruct rs as [[|r0 rs]|]; simpl;
    try (by rewrite (probe_ext w1 w2 _ _ _ _ _ (Hw _))).
  rewrite !check_model_in_regions_run. simpl.
  assert (∀ r, regional_status w1 project pm.1 pm.2 access_token r
               = regional_status w2 project pm.1 pm.2 access_token r) as Hst.
  { intros r. unfold regional_status.
    by rewrite (probe_ext w1 w2 _ _ _ _ _ (Hw _)). }
  assert (∀ s (l : list string),
    filter (λ r, regional_status w1 project pm.1 pm.2 access_token r = Some s) l
    = filter (λ r, regional_status w2 project pm.1 pm.2 access_token r = Some s)
        l) as Hf.
  { intros s l. apply list_filter_iff. intros r. by rewrite Hst. }
  by rewrite !Hf.
Qed.

Lemma omap_id_fmap {A B} (f : A → option B) (l : list A) :
  omap id (f <$> l) = omap f l.
Proof.
  induction l as [|a l IH]; csimpl; [done|].
  destruct (f a); [f_equal|]; exact IH.
Qed.

Lemma collect_returns (vs : list (option model_info))
    (all_models : list model_info) :
  collect (Returns <$> vs) all_models
  = Returns (all_models ++ omap id vs).
Proof.
  revert all_models. induction vs as [|[r|] vs IH]; intros all_models; simpl.
  - by rewrite app_nil_r.
  - rewrite IH. by rewrite <- app_assoc.
  - by rewrite IH.
Qed.

(** The sweep always returns: the sorted list of what the units
    contributed, taken in the order they completed. *)
Lemma sweep_run (project access_token : string) (rs : option (list string))
    (w : world) (patterns : list (string * string)) :
  sweep project access_token rs w patterns
  = Returns
      (sort_by sort_key
         (omap (λ pm, contribution
                        (unit_of_work project access_token rs pm (net w)).1)
            (as_completed w patterns))).
Proof.
  unfold sweep.
  assert (∀ l : list (string * string),
    (λ pm, (unit_of_work project access_token rs pm (net w)).1) <$> l
    = Returns <$>
        ((λ pm, contribution
                  (unit_of_work project access_token rs pm (net w)).1) <$> l))
    as ->.
  { intros l. rewrite <- list_fmap_compose. apply list_fmap_ext.
    intros _ pm _. simpl.
    by destruct (unit_of_work_summary (net w) project access_token rs pm)
      as (v & -> & _). }
  rewrite collect_returns. simpl. f_equal. f_equal.
  apply omap_id_fmap.
Qed.

(** The keys of what the units contribute are among the patterns, in the
    same order. *)
Lemma contribution_keys (project access_token : string)
    (rs : option (list string)) (w : network) (l : list (string * string)) :
  sublist
    (sort_key <$>
       omap (λ pm, contribution (unit_of_work project access_token rs pm w).1)
         l)
    l.
Proof.
  induction l as [|pm l IH]; simpl; [done|].
  destruct (unit_of_work_summary w project access_token rs pm)
    as (v & -> & Hv).
  simpl. destruct v as [r|]; simpl.
  - destruct (Hv r eq_refl) as [-> _]. by apply sublist_skip.
  - by apply sublist_cons.
Qed.

(** ** The catalog *)

Lemma static_patterns_NoDup : NoDup static_patterns.
Proof. apply (bool_decide_unpack _). by vm_compute. Qed.

Lemma mistral_in_expanded_set (models : list (string * string)) :
  ("mistral-ai", "mistral-medium-3") ∈ expanded_set models.
Proof. unfold expanded_set, mistral_specific_models. simpl. set_solver. Qed.

(** The candidates are pairwise distinct and there is at least one. *)
Lemma get_model_patterns_candidates (use_dynamic : bool) (run : run_result)
    (patterns : list (string * string)) :
  get_model_patterns use_dynamic run = Returns patterns →
  NoDup patterns ∧ nonempty patterns = true.
Proof.
  unfold get_model_patterns.
  destruct use_dynamic; [destruct (fetch_model_garden_models run)
                           as [models| |]; [destruct (nonempty models)|..]|];
    try done; intros [= <-];
    try (split; [apply static_patterns_NoDup|done]).
  split; [apply NoDup_elements|].
  pose proof (mistral_in_expanded_set models) as Hin.
  apply elem_of_elements in Hin.
  by destruct (elements (expanded_set models)); [apply elem_of_nil in Hin|].
Qed.

(** The failures of the listing that are handled. When the listing
    command returns a non-zero code, times out, is missing, or yields no
    usable line, the dynamic path returns the static table; the static
    table is also what is returned when it is asked for, whatever the
    listing command does. The table is not empty and holds every listed
    model of every publisher. *)
Theorem get_model_patterns_fallback (run : run_result) :
  ((∃ returncode stdout stderr,
      run = Completed returncode stdout stderr ∧ returncode ≠ 0)
   ∨ run = RunRaises subprocess_TimeoutExpired
   ∨ run = RunRaises FileNotFoundError
   ∨ fetch_model_garden_models run = Returns [] →
   get_model_patterns true run = Returns static_patterns)
  ∧ get_model_patterns false run = Returns static_patterns
  ∧ static_patterns ≠ []
  ∧ (∀ m, m ∈ google_models → ("google", m) ∈ static_patterns)
  ∧ (∀ m, m ∈ anthropic_models → ("anthropic", m) ∈ static_patterns)
  ∧ (∀ m, m ∈ meta_models → ("meta", m) ∈ static_patterns)
  ∧ (∀ m, m ∈ mistral_models → ("mistral-ai", m) ∈ static_patterns)
  ∧ (∀ m, m ∈ ai21_models → ("ai21", m) ∈ static_patterns).
Proof.
  split; [|split; [done|split; [done|]]].
  - assert (fetch_model_garden_models run = Returns [] →
            get_model_patterns true run = Returns static_patterns) as Hempty.
    { unfold get_model_patterns. by intros ->. }
    intros [(rc & out & err & -> & Hrc)|[->|[->|H]]]; apply Hempty; try done.
    simpl. by destruct (Z.eqb_spec rc 0).
  - unfold static_patterns.
    repeat split; intros m Hm; rewrite !elem_of_app;
      [left|right; left|do 2 right; left|do 3 right; left|do 4 right];
      apply (list_elem_of_fmap_2 (λ m, (_, m))), Hm.
Qed.

Lemma get_model_patterns_fallback_witness :
  get_model_patterns true (Completed 1 "" "ERROR: not logged in")
  = Returns static_patterns
  ∧ get_model_patterns true
      (Completed 0 "publishers/google/models/imagen-3.0" "")
    = Returns static_patterns
  ∧ ("ai21", "jamba-large-1.6") ∈ static_patterns.
Proof.
  split; [|split].
  - apply (proj1 (get_model_patterns_fallback
                    (Completed 1 "" "ERROR: not logged in"))).
    left. exists 1, "", "ERROR: not logged in". split; [reflexivity|lia].
  - apply (proj1 (get_model_patterns_fallback
                    (Completed 0 "publishers/google/models/imagen-3.0" ""))).
    do 3 right. reflexivity.
  - destruct (get_model_patterns_fallback (RunRaises FileNotFoundError))
      as (_ & _ & _ & _ & _ & _ & _ & Hai21).
    apply Hai21. by left.
Defined.

(** C7, where the code departs from it. A listing command that fails by
    raising something other than [TimeoutExpired] or [FileNotFoundError],
    such as the [PermissionError] of a [gcloud] that may not be executed,
    is not caught: the exception leaves [fetch_model_garden_models],
    [get_model_patterns] and [discover_models], and the static table is
    not used, although it is for the failures that are caught. *)
Theorem get_model_patterns_unhandled_failure :
  fetch_model_garden_models (RunRaises (other_Exception "PermissionError"))
  = Raises (other_Exception "PermissionError")
  ∧ get_model_patterns true (RunRaises (other_Exception "PermissionError"))
    = Raises (other_Exception "PermissionError")
  ∧ get_model_patterns true (RunRaises (other_Exception "PermissionError"))
    ≠ Returns static_patterns
  ∧ discover_models "my-project" false None world_without_listing
    = Raises (other_Exception "PermissionError")
  ∧ get_model_patterns true (RunRaises FileNotFoundError)
    = Returns static_patterns
  ∧ get_model_patterns true (RunRaises subprocess_TimeoutExpired)
    = Returns static_patterns.
Proof. repeat split; done. Qed.

(** ** The report *)

(** On a set of candidates the report is the strictly ascending
    arrangement of what the units contributed. *)
Lemma sweep_report (project access_token : string)
    (rs : option (list string)) (w : world)
    (patterns : list (string * string)) :
  NoDup patterns → as_completed w patterns ≡ₚ patterns →
  ∃ report,
    sweep project access_token rs w patterns = Returns report
    ∧ report ≡ₚ
        omap (λ pm, contribution
                      (unit_of_work project access_token rs pm (net w)).1)
          patterns
    ∧ StronglySorted entry_lt report
    ∧ NoDup (sort_key <$> report).
Proof.
  intros Hnd Hperm. rewrite sweep_run. eexists. split; [done|].
  set (l := omap _ (as_completed w patterns)).
  assert (NoDup (sort_key <$> l)) as Hkeys.
  { apply (sublist_NoDup _ (as_completed w patterns)).
    - by rewrite Hperm.
    - apply contribution_keys. }
  split; [|split].
  - rewrite sort_by_Permutation. subst l. by rewrite Hperm.
  - by apply (sort_by_StronglySorted sort_key).
  - by rewrite sort_by_Permutation.
Qed.

(** A run of [discover_models] that returns got a token and a list of
    candidates, and returns the report of the sweep over them. *)
Lemma discover_models_inv (project : string) (use_static : bool)
    (continent : option string) (w : world) (report : list model_info) :
  discover_models project use_static continent w = Returns report →
  ∃ access_token patterns,
    get_access_token (token_run w) = Returns access_token
    ∧ get_model_patterns (negb use_static) (garden_run w) = Returns patterns
    ∧ sweep project access_token
        (if truthy continent
         then CONTINENT_REGIONS !! default "" continent else None)
        w patterns
      = Returns report.
Proof.
  unfold discover_models.
  destruct (get_access_token (token_run w)) as [tok| |]; try done.
  destruct (get_model_patterns (negb use_static) (garden_run w))
    as [patterns| |] eqn:Hp; try done.
  destruct (get_model_patterns_candidates _ _ _ Hp) as [_ ->].
  intros H. by exists tok, patterns.
Qed.

(** Conversely, with a token and a catalog the run returns. *)
Lemma discover_models_returns (project : string) (use_static : bool)
    (continent : option string) (w : world)
    (access_token : string) (patterns : list (string * string)) :
  get_access_token (token_run w) = Returns access_token →
  get_model_patterns (negb use_static) (garden_run w) = Returns patterns →
  discover_models project use_static continent w
  = sweep project access_token
      (if truthy continent
       then CONTINENT_REGIONS !! default "" continent else None)
      w patterns.
Proof.
  intros Ht Hp. unfold discover_models. rewrite Ht, Hp.
  by destruct (get_model_patterns_candidates _ _ _ Hp) as [_ ->].
Qed.

(** C4. A probe whose HTTP call raises returns nothing, and in a regional
    check that region is left without a status. No unit of work raises, so
    the sweep returns a report for every list of candidates and every
    network; every entry another unit returned is in it. With a token and
    a catalog, [discover_models] returns a report. *)
Theorem sweep_survives_failures (project : string) (w : world) :
  (∀ access_token pub mid region e,
     net w (probe_request project pub mid access_token region) = Throws e →
     (check_model_availability project pub mid access_token region (net w)).1
     = Returns None)
  ∧ (∀ access_token pub mid region e,
       net w (probe_request project pub mid access_token (Some region))
       = Throws e →
       regional_status (net w) project pub mid access_token region = None)
  ∧ (∀ access_token rs pm,
       ∃ v, (unit_of_work project access_token rs pm (net w)).1 = Returns v)
  ∧ (∀ access_token rs patterns,
       ∃ report,
         sweep project access_token rs w patterns = Returns report
         ∧ (as_completed w patterns ≡ₚ patterns →
            ∀ pm r, pm ∈ patterns →
              (unit_of_work project access_token rs pm (net w)).1
              = Returns (Some r) →
              r ∈ report))
  ∧ (∀ use_static continent access_token patterns,
       get_access_token (token_run w) = Returns access_token →
       get_model_patterns (negb use_static) (garden_run w)
       = Returns patterns →
       ∃ report,
         discover_models project use_static continent w = Returns report).
Proof.
  assert (∀ access_token pub mid region e,
     net w (probe_request project pub mid access_token region) = Throws e →
     (check_model_availability project pub mid access_token region (net w)).1
     = Returns None) as Hprobe.
  { intros tok pub mid region e. apply probe_raises_absent. }
  split; [done|]. split; [|split; [|split]].
  - intros tok pub mid region e He. unfold regional_status.
    by rewrite (Hprobe _ _ _ _ _ He).
  - intros tok rs pm.
    destruct (unit_of_work_summary (net w) project tok rs pm) as (v & Hv & _).
    by exists v.
  - intros tok rs patterns. rewrite sweep_run. eexists. split; [done|].
    intros Hperm pm r Hpm Hr. rewrite sort_by_Permutation.
    apply list_elem_of_omap. exists pm. split; [by rewrite Hperm|].
    by rewrite Hr.
  - intros use_static continent tok patterns Ht Hp.
    rewrite (discover_models_returns _ _ _ _ _ _ Ht Hp), sweep_run.
    by eexists.
Qed.

Lemma sweep_survives_failures_witness :
  (check_model_availability "p" "anthropic" "claude-opus-4" "t" None
     flaky_network).1 = Returns None
  ∧ (∃ report, discover_models "p" true None sample_world = Returns report)
  ∧ (∃ report,
       sweep "p" "t" None sample_world static_patterns = Returns report
       ∧ ∃ r, r ∈ report ∧ sort_key r = ("google", "gemini-2.5-pro")).
Proof.
  destruct (sweep_survives_failures "p" sample_world)
    as (Hprobe & _ & _ & Hsweep & Hrun).
  split; [|split].
  - by apply (Hprobe "t" "anthropic" "claude-opus-4" None requests_Timeout).
  - by apply (Hrun true None "ya29.token" static_patterns).
  - destruct (Hsweep "t" None static_patterns) as (report & Hreport & Hin).
    exists report. split; [exact Hreport|].
    eexists. split.
    + apply (Hin (reverse_Permutation _) ("google", "gemini-2.5-pro")).
      * apply (bool_decide_unpack _). by vm_compute.
      * reflexivity.
    + reflexivity.
Defined.

(** C5. When the pool hands back each submitted unit once, the report
    holds exactly the entries the units returned, ascending by
    (publisher, model) in character-code order, and no two entries share a
    key: on every list of distinct candidates, and so on every run of
    [discover_models], whose candidates are distinct. *)
Theorem discover_models_sorted (project : string) (w : world) :
  (∀ l, as_completed w l ≡ₚ l) →
  (∀ access_token rs patterns,
     NoDup patterns →
     ∃ report,
       sweep project access_token rs w patterns = Returns report
       ∧ report ≡ₚ
           omap (λ pm, contribution
                         (unit_of_work project access_token rs pm (net w)).1)
             patterns
       ∧ StronglySorted entry_lt report
       ∧ NoDup (sort_key <$> report))
  ∧ (∀ use_static continent report,
       discover_models project use_static continent w = Returns report →
       StronglySorted entry_lt report
       ∧ NoDup (sort_key <$> report)
       ∧ ∃ access_token patterns,
           get_access_token (token_run w) = Returns access_token
           ∧ get_model_patterns (negb use_static) (garden_run w)
             = Returns patterns
           ∧ NoDup patterns
           ∧ report ≡ₚ
               omap (λ pm,
                       contribution
                         (unit_of_work project access_token
                            (if truthy continent
                             then CONTINENT_REGIONS !! default "" continent
                             else None)
                            pm (net w)).1)
                 patterns).
Proof.
  intros Hperm. split.
  - intros tok rs patterns Hnd. by apply sweep_report.
  - intros use_static continent report Hrun.
    destruct (discover_models_inv _ _ _ _ _ Hrun)
      as (tok & patterns & Ht & Hp & Hs).
    destruct (get_model_patterns_candidates _ _ _ Hp) as [Hnd _].
    destruct (sweep_report project tok
                (if truthy continent
                 then CONTINENT_REGIONS !! default "" continent else None)
                w patterns Hnd (Hperm _))
      as (report' & Hs' & Hrep & Hsorted & Hkeys).
    rewrite Hs in Hs'. injection Hs' as <-.
    split; [done|]. split; [done|]. by exists tok, patterns.
Qed.

Lemma discover_models_sorted_witness :
  ∃ report,
    discover_models "p" true (Some "europe") sample_world = Returns report
    ∧ StronglySorted entry_lt report
    ∧ NoDup (sort_key <$> report).
Proof.
  eexists. split.
  - rewrite (discover_models_returns "p" true (Some "europe") sample_world
               "ya29.token" static_patterns eq_refl eq_refl).
    apply sweep_run.
  - pose proof (proj2 (discover_models_sorted "p" sample_world
                         reverse_Permutation)
                  true (Some "europe") _
                  (eq_trans
                     (discover_models_returns "p" true (Some "europe")
                        sample_world "ya29.token" static_patterns
                        eq_refl eq_refl)
                     (sweep_run _ _ _ _ _))) as (Hs & Hk & _).
    by split.
Defined.

(** C6. Every entry of a report carries one of the three statuses
    "available", "needs_eula" and "needs_permission": for the sweep over
    any candidates, and so for every run of [discover_models]. *)
Theorem report_status_closed (project : string) (w : world) :
  (∀ access_token rs patterns report,
     sweep project access_token rs w patterns = Returns report →
     ∀ r, r ∈ report → status r ∈ report_statuses)
  ∧ (∀ use_static continent report,
       discover_models project use_static continent w = Returns report →
       ∀ r, r ∈ report → status r ∈ report_statuses).
Proof.
  assert (∀ access_token rs patterns report,
     sweep project access_token rs w patterns = Returns report →
     ∀ r, r ∈ report → status r ∈ report_statuses) as Hsweep.
  { intros tok rs patterns report. rewrite sweep_run. intros [= <-] r.
    rewrite sort_by_Permutation, list_elem_of_omap.
    intros (pm & _ & Hr).
    destruct (unit_of_work_summary (net w) project tok rs pm)
      as (v & Hv & Hst).
    rewrite Hv in Hr. simpl in Hr. by apply Hst. }
  split; [done|].
  intros use_static continent report Hrun.
  destruct (discover_models_inv _ _ _ _ _ Hrun) as (tok & patterns & _ & _ & Hs).
  by eapply Hsweep.
Qed.

Lemma report_status_closed_witness :
  ∃ report,
    discover_models "p" true None sample_world = Returns report
    ∧ ∀ r, r ∈ report → status r ∈ report_statuses.
Proof.
  eexists. split.
  - rewrite (discover_models_returns "p" true None sample_world
               "ya29.token" static_patterns eq_refl eq_refl).
    apply sweep_run.
  - apply (proj2 (report_status_closed "p" sample_world) true None).
    rewrite (discover_models_returns "p" true None sample_world
               "ya29.token" static_patterns eq_refl eq_refl).
    apply sweep_run.
Defined.

(** C8. Two sweeps over the same set of candidates, against networks
    that give the same reply to every request, return the same report,
    whatever the order of the candidates and whatever the order in which
    the units complete; and so do two runs of [discover_models] that
    differ only in the completion order. *)
Theorem sweep_deterministic (project : string) :
  (∀ access_token rs w1 w2 patterns1 patterns2,
     NoDup patterns1 → patterns1 ≡ₚ patterns2 →
     (∀ req, net w1 req = net w2 req) →
     as_completed w1 patterns1 ≡ₚ patterns1 →
     as_completed w2 patterns2 ≡ₚ patterns2 →
     sweep project access_token rs w1 patterns1
     = sweep project access_token rs w2 patterns2)
  ∧ (∀ use_static continent w1 w2,
       token_run w1 = token_run w2 → garden_run w1 = garden_run w2 →
       (∀ req, net w1 req = net w2 req) →
       (∀ l, as_completed w1 l ≡ₚ l) → (∀ l, as_completed w2 l ≡ₚ l) →
       discover_models project use_static continent w1
       = discover_models project use_static continent w2).
Proof.
  assert (∀ access_token rs w1 w2 patterns1 patterns2,
     NoDup patterns1 → patterns1 ≡ₚ patterns2 →
     (∀ req, net w1 req = net w2 req) →
     as_completed w1 patterns1 ≡ₚ patterns1 →
     as_completed w2 patterns2 ≡ₚ patterns2 →
     sweep project access_token rs w1 patterns1
     = sweep project access_token rs w2 patterns2) as Hsweep.
  { intros tok rs w1 w2 p1 p2 Hnd Hp Hnet H1 H2. rewrite !sweep_run.
    f_equal. apply sort_by_unique.
    - apply (sublist_NoDup _ (as_completed w1 p1)).
      + by rewrite H1.
      + apply contribution_keys.
    - rewrite H1, Hp, H2.
      rewrite (list_omap_ext _
                 (λ pm, contribution
                          (unit_of_work project tok rs pm (net w2)).1)
                 p2 p2); [done|].
      apply Forall_Forall2_diag, Forall_forall. intros pm _.
      by rewrite (unit_of_work_ext (net w1) (net w2)). }
  split; [done|].
  intros use_static continent w1 w2 Ht Hg Hnet H1 H2.
  unfold discover_models. rewrite Ht, Hg.
  destruct (get_access_token (token_run w2)) as [tok| |]; try done.
  destruct (get_model_patterns (negb use_static) (garden_run w2))
    as [patterns| |] eqn:Hp; try done.
  destruct (get_model_patterns_candidates _ _ _ Hp) as [Hnd ->].
  by apply Hsweep.
Qed.

Lemma sweep_deterministic_witness :
  discover_models "p" true (Some "us") sample_world
  = discover_models "p" true (Some "us") sample_world_in_order.
Proof.
  apply (proj2 (sweep_deterministic "p") true (Some "us")
           sample_world sample_world_in_order).
  - reflexivity.
  - reflexivity.
  - intros req. reflexivity.
  - apply reverse_Permutation.
  - intros l. reflexivity.
Defined.

(** ** The Gemini client *)

Import GeminiDeepthink.

(** C10. The key is the [--api-key] argument when it is given and not
    empty, and the value of [GEMINI_API_KEY] otherwise. When that key is
    missing, empty or "1234" the run ends with exit code 1; otherwise the
    key is returned as it is. *)
Theorem get_api_key_checks (arg_key : option string)
    (environ : gmap string string) :
  let key :=
    if truthy arg_key then arg_key else environ !! "GEMINI_API_KEY" in
  (key = None ∨ key = Some "" ∨ key = Some "1234" →
   get_api_key arg_key environ = Exits 1)
  ∧ (∀ k, key = Some k → k ≠ "" → k ≠ "1234" →
       get_api_key arg_key environ = Returns k).
Proof.
  unfold get_api_key, or_else. simpl.
  destruct (if truthy arg_key then arg_key else environ !! "GEMINI_API_KEY")
    as [k|]; [|by split].
  split.
  - intros [?|[[= ->]|[= ->]]]; done.
  - intros k' [= <-] Hne Hne'.
    destruct k as [|c k]; [done|].
    change (negb (truthy (Some (String c k)))) with false.
    by destruct (String.eqb_spec (String c k) "1234").
Qed.

Lemma get_api_key_checks_witness :
  get_api_key (Some "") sample_environ = Returns "AIza-sample"
  ∧ get_api_key (Some "1234") sample_environ = Exits 1
  ∧ get_api_key None ∅ = Exits 1.
Proof.
  split; [|split].
  - by apply (proj2 (get_api_key_checks (Some "") sample_environ)).
  - apply (proj1 (get_api_key_checks (Some "1234") sample_environ)).
    right; right. reflexivity.
  - apply (proj1 (get_api_key_checks None ∅)). left. reflexivity.
Defined.

(** C9. In the payload of every run that reaches the request, the
    thinking configuration has the field [thinkingBudget] exactly when the
    budget argument is positive, and then has no [thinkingLevel]; when the
    budget is zero or negative it has [thinkingLevel] and no
    [thinkingBudget]. It never has both. *)
Theorem thinking_config_exclusive (args : arguments) (tty : bool)
    (input : string) (environ : gmap string string)
    (key : string) (body : request_payload) :
  main_payload args tty input environ = Returns (key, body) →
  let cfg := thinkingConfig (generationConfig body) in
  (is_Some (cfg !! "thinkingBudget") ↔ thinking_budget args > 0)
  ∧ (thinking_budget args > 0 →
     cfg !! "thinkingBudget" = Some (VInt (thinking_budget args))
     ∧ cfg !! "thinkingLevel" = None)
  ∧ (thinking_budget args ≤ 0 →
     cfg !! "thinkingLevel" = Some (VStr (thinking_level args))
     ∧ cfg !! "thinkingBudget" = None)
  ∧ ¬ (is_Some (cfg !! "thinkingBudget")
       ∧ is_Some (cfg !! "thinkingLevel")).
Proof.
  unfold main_payload.
  destruct (negb (truthy _)); [done|].
  destruct (get_api_key (api_key args) environ); try done.
  intros [= <- <-]. simpl. unfold thinking_config.
  destruct (Z.gtb_spec (thinking_budget args) 0) as [Hpos|Hneg];
    simplify_map_eq; repeat split; intros; simplify_eq;
    try done; try lia; try (by eexists).
  - by intros [_ [? ?]].
  - by intros [[? ?] _].
Qed.

Lemma thinking_config_exclusive_witness :
  (∃ key body,
     main_payload budget_arguments true "" sample_environ
     = Returns (key, body)
     ∧ thinkingConfig (generationConfig body) !! "thinkingBudget"
       = Some (VInt 4000)
     ∧ thinkingConfig (generationConfig body) !! "thinkingLevel" = None)
  ∧ (∃ key body,
       main_payload level_arguments true "" sample_environ
       = Returns (key, body)
       ∧ thinkingConfig (generationConfig body) !! "thinkingLevel"
         = Some (VStr "high")
       ∧ thinkingConfig (generationConfig body) !! "thinkingBudget" = None).
Proof.
  split.
  - do 2 eexists. split; [reflexivity|].
    apply (thinking_config_exclusive budget_arguments true ""
             sample_environ _ _ eq_refl).
    simpl. lia.
  - do 2 eexists. split; [reflexivity|].
    apply (thinking_config_exclusive level_arguments true ""
             sample_environ _ _ eq_refl).
    simpl. lia.
Defined.

(** * Further properties of the code *)

(** ** Probes and test calls *)

Lemma str_app_assoc (a b c : string) : (a +:+ b) +:+ c = a +:+ b +:+ c.
Proof.
  induction a as [|x a IH]; [done|]. by rewrite !app_cons, IH.
Qed.

(** X1. An empty region name counts as no region: whatever the network
    answers, the probe then makes the same request, to the global
    endpoint, and has the same result. Any entry a probe returns names
    the publisher and the model it was asked about, and as its endpoint
    the region, or "global" without one. *)
Theorem probe_names_its_target (w : network)
    (project pub mid access_token : string) (region : option string) :
  check_model_availability project pub mid access_token (Some "") w
  = check_model_availability project pub mid access_token None w
  ∧ probe_request project pub mid access_token (Some "")
    = probe_request project pub mid access_token None
  ∧ ∀ r,
      (check_model_availability project pub mid access_token region w).1
      = Returns (Some r) →
      publisher r = pub ∧ model_id r = mid
      ∧ located r
        = endpoint (match region with
                    | Some (String c s) => String c s
                    | _ => "global"
                    end).
Proof.
  split; [done|]. split; [done|]. intros r.
  destruct (probe_summary w project pub mid access_token region)
    as (v & -> & Hv).
  simpl. intros [= ->]. destruct (Hv r eq_refl) as (Hp & Hm & _ & Hl & _).
  repeat split; try done.
  rewrite Hl. by destruct region as [[|c s]|].
Qed.

Lemma probe_names_its_target_witness :
  check_model_availability "p" "meta" "llama" "t" (Some "")
    (λ _, Response 404 "Not Found")
  = check_model_availability "p" "meta" "llama" "t" None
      (λ _, Response 404 "Not Found")
  ∧ (∃ r,
       (check_model_availability "p" "meta" "llama" "t" (Some "")
          flaky_network).1 = Returns (Some r)
       ∧ publisher r = "meta" ∧ model_id r = "llama"
       ∧ located r = endpoint "global")
  ∧ (∃ r,
       (check_model_availability "p" "meta" "llama" "t" (Some "us-central1")
          one_region_network).1 = Returns (Some r)
       ∧ publisher r = "meta" ∧ model_id r = "llama"
       ∧ located r = endpoint "us-central1").
Proof.
  split; [|split].
  - exact (proj1 (probe_names_its_target (λ _, Response 404 "Not Found")
                    "p" "meta" "llama" "t" None)).
  - eexists. split; [reflexivity|].
    exact (proj2 (proj2 (probe_names_its_target flaky_network
                           "p" "meta" "llama" "t" (Some "")))
             _ eq_refl).
  - eexists. split; [reflexivity|].
    exact (proj2 (proj2 (probe_names_its_target one_region_network
                           "p" "meta" "llama" "t" (Some "us-central1")))
             _ eq_refl).
Defined.

(** X2. The test call of a model goes to the URL, and with the headers,
    that the discovery probe uses for that model on the global endpoint;
    it waits 30 seconds where the probe waits 15. *)
Theorem test_model_request_matches_probe
    (pub mid project access_token : string) :
  let test := test_model_request pub mid project access_token in
  let probe := probe_request project pub mid access_token None in
  url test = url probe ∧ headers test = headers probe
  ∧ timeout test = 30 ∧ timeout probe = 15.
Proof.
  unfold test_model_request, probe_request, probe_url, probe_base_url,
    probe_location.
  simpl truthy. cbv iota.
  destruct (String.eqb pub "anthropic"); [|destruct (String.eqb pub "mistral-ai")];
    simpl; repeat split; by rewrite !str_app_assoc.
Qed.

Lemma test_model_with_token (w : network) (pub mid project : string)
    (project_run token_run : run_result) (access_token : string) :
  project ≠ "" →
  get_access_token token_run = Returns access_token →
  test_model pub mid (Some project) project_run token_run w
  = (Returns tt, [test_model_request pub mid project access_token]).
Proof.
  intros Hproject Htoken. unfold test_model.
  destruct project as [|c project]; [done|]. simpl truthy. cbv iota.
  rewrite Htoken. simpl default.
  unfold try_except, bind, requests_post, ret.
  assert ({| url :=
               url (test_model_request pub mid (String c project)
                      access_token);
             headers :=
               headers (test_model_request pub mid (String c project)
                          access_token);
             payload :=
               payload (test_model_request pub mid (String c project)
                          access_token);
             timeout := 30 |}
          = test_model_request pub mid (String c project) access_token)
    as ->.
  { unfold test_model_request.
    destruct (String.eqb pub "anthropic"); [done|].
    by destruct (String.eqb pub "mistral-ai"). }
  by destruct (w _).
Qed.

(** X3. Running [test_model] with a project and a token makes exactly one
    HTTP call, the test request, and returns whatever the reply is, even
    when the call raises; when the token cannot be obtained it exits with
    code 1 before any call. *)
Theorem test_model_one_call (w : network) (pub mid project : string)
    (project_run token_run : run_result) :
  project ≠ "" →
  (∀ access_token,
     get_access_token token_run = Returns access_token →
     test_model pub mid (Some project) project_run token_run w
     = (Returns tt, [test_model_request pub mid project access_token]))
  ∧ (∀ returncode stdout stderr,
       token_run = Completed returncode stdout stderr → returncode ≠ 0 →
       test_model pub mid (Some project) project_run token_run w
       = (Exits 1, [])).
Proof.
  intros Hproject. split.
  - intros tok Htoken. by apply test_model_with_token.
  - intros rc out err -> Hrc. unfold test_model.
    destruct project as [|c project]; [done|]. simpl.
    by destruct (Z.eqb_spec rc 0).
Qed.

Lemma test_model_one_call_witness :
  test_model "google" "gemini-2.5-pro" (Some "p") (Completed 1 "" "")
    (Completed 0 "ya29.token" "") flaky_network
  = (Returns tt,
     [test_model_request "google" "gemini-2.5-pro" "p" "ya29.token"])
  ∧ test_model "google" "gemini-2.5-pro" (Some "p") (Completed 1 "" "")
      (Completed 1 "" "not logged in") flaky_network
    = (Exits 1, []).
Proof.
  split.
  - apply (proj1 (test_model_one_call flaky_network "google"
                    "gemini-2.5-pro" "p" (Completed 1 "" "")
                    (Completed 0 "ya29.token" "") ltac:(done))).
    reflexivity.
  - apply (proj2 (test_model_one_call flaky_network "google"
                    "gemini-2.5-pro" "p" (Completed 1 "" "")
                    (Completed 1 "" "not logged in") ltac:(done))
             1 "" "not logged in"); [reflexivity|lia].
Defined.

(** ** The region aggregator, continued *)

(** X4. Over a single region the aggregator agrees with the probe of that
    region: it returns nothing when the probe does, and otherwise an
    entry with the status of the probe and that one region. *)
Theorem check_model_in_regions_single (w : network)
    (project pub mid access_token region : string) :
  (check_model_in_regions project pub mid access_token [region] w).1
  = Returns
      (match
         contribution
           (check_model_availability project pub mid access_token
              (Some region) w).1
       with
       | Some p =>
           Some {| publisher := pub; model_id := mid; status := status p;
                   located := regions [region];
                   requires_eula := not_first_party pub |}
       | None => None
       end).
Proof.
  rewrite check_model_in_regions_run. simpl. f_equal.
  rewrite !filter_cons, !filter_nil. unfold regional_status.
  destruct (probe_summary w project pub mid access_token (Some region))
    as (v & -> & Hv).
  simpl. destruct v as [p|]; simpl; [|by repeat case_decide].
  destruct (Hv p eq_refl) as (_ & _ & Hs & _).
  unfold report_statuses in Hs.
  repeat (apply elem_of_cons in Hs as [->|Hs]);
    [..|by apply elem_of_nil in Hs];
    repeat case_decide; simplify_eq; done.
Qed.

Lemma check_model_in_regions_located (w : network)
    (project pub mid access_token : string) (rs : list string)
    (rep : model_info) :
  (check_model_in_regions project pub mid access_token rs w).1
  = Returns (Some rep) →
  ∃ l, located rep = regions l ∧ l ≠ [] ∧ l `sublist_of` rs.
Proof.
  rewrite check_model_in_regions_run. simpl.
  repeat match goal with
         | |- context [if nonempty ?l then _ else _] =>
             let E := fresh "E" in destruct (nonempty l) eqn:E
         end;
    intros [= <-]; simpl; eexists; (split; [reflexivity|]);
    (split; [by intros E'; rewrite E' in *|apply sublist_filter]).
Qed.

(** X5. The regions of an entry the aggregator returns are never empty
    and are a sublist of the regions it was given; without regions it
    returns nothing and makes no call. *)
Theorem check_model_in_regions_regions (w : network)
    (project pub mid access_token : string) (rs : list string) :
  (∀ rep,
     (check_model_in_regions project pub mid access_token rs w).1
     = Returns (Some rep) →
     ∃ l, located rep = regions l ∧ l ≠ [] ∧ l `sublist_of` rs)
  ∧ check_model_in_regions project pub mid access_token [] w
    = (Returns None, []).
Proof.
  split; [|done]. intros rep. apply check_model_in_regions_located.
Qed.

Lemma check_model_in_regions_regions_witness :
  ∃ rep l,
    (check_model_in_regions "p" "meta" "llama" "t"
       ["us-east1"; "us-central1"] one_region_network).1
    = Returns (Some rep)
    ∧ located rep = regions l ∧ l ≠ []
    ∧ l `sublist_of` ["us-east1"; "us-central1"].
Proof.
  destruct (proj1 (check_model_in_regions_regions one_region_network
                     "p" "meta" "llama" "t" ["us-east1"; "us-central1"])
              _ eq_refl) as (l & Hl).
  eexists. exists l. split; [reflexivity|exact Hl].
Defined.

(** ** Resource names *)

Lemma str_in_char (c a : ascii) (s : string) :
  str_in (String c "") (String a s)
  = (if ascii_dec c a then true else false) || str_in (String c "") s.
Proof.
  rewrite str_in_cons, prefix_cons.
  destruct (ascii_dec c a); [|done]. by destruct s.
Qed.

Lemma strip_prefix_app (p s : string) : strip_prefix p (p +:+ s) = Some s.
Proof.
  induction p as [|a p IH]; [by destruct s|].
  rewrite app_cons. simpl. by rewrite Ascii.eqb_refl.
Qed.

Lemma strip_prefix_Some (p s r : string) :
  strip_prefix p s = Some r → s = p +:+ r.
Proof.
  revert s. induction p as [|a p IH]; intros s; [by intros [= ->]|].
  destruct s as [|b s]; [done|]. simpl.
  destruct (Ascii.eqb_spec a b) as [->|]; [|done].
  intros H. by rewrite app_cons, <- (IH _ H).
Qed.

Lemma break_at_cons (c a : ascii) (t : string) :
  break_at c (String a t)
  = if Ascii.eqb a c then (EmptyString, String a t)
    else ((String a (break_at c t).1), (break_at c t).2).
Proof. simpl. destruct (Ascii.eqb a c); [done|]. by destruct (break_at c t). Qed.

(** [break_at] cuts before the first occurrence of the character. *)
Lemma break_at_spec (c : ascii) (s : string) :
  s = (break_at c s).1 +:+ (break_at c s).2
  ∧ str_in (String c "") (break_at c s).1 = false
  ∧ ((break_at c s).2 = "" ∨ ∃ t, (break_at c s).2 = String c t).
Proof.
  induction s as [|a s (IH1 & IH2 & IH3)]; [by repeat split; auto|].
  rewrite break_at_cons. destruct (Ascii.eqb_spec a c) as [->|Hne].
  - repeat split; eauto.
  - destruct (break_at c s) as [p r]. cbn [fst snd] in *.
    rewrite app_cons, <- IH1, str_in_char, IH2.
    repeat split; [|done]. by destruct (ascii_dec c a) as [->|].
Qed.

Lemma break_at_app (c : ascii) (a b : string) :
  str_in (String c "") a = false →
  break_at c (a +:+ String c b) = (a, String c b).
Proof.
  induction a as [|x a IH]; intros Ha.
  - rewrite app_empty. simpl. by rewrite Ascii.eqb_refl.
  - rewrite str_in_char in Ha. apply orb_false_elim in Ha as [Hx Ha].
    rewrite app_cons, break_at_cons.
    destruct (Ascii.eqb_spec x c) as [->|_];
      [by destruct (ascii_dec c c)|].
    by rewrite (IH Ha).
Qed.

Lemma match_resource_name_sound (line pub mid : string) :
  match_resource_name line = Some (pub, mid) →
  line = "publishers/" +:+ pub +:+ "/models/" +:+ mid
  ∧ pub ≠ "" ∧ str_in "/" pub = false ∧ mid ≠ "".
Proof.
  unfold match_resource_name.
  destruct (strip_prefix "publishers/" line) as [rest|] eqn:Hrest; [|done].
  apply strip_prefix_Some in Hrest as ->.
  destruct (break_at_spec "/" rest) as (Hcut & Hno & _).
  destruct (break_at "/" rest) as [p r]. cbn [fst snd] in *.
  destruct p as [|c p]; [done|].
  destruct (strip_prefix "/models/" r) as [[|d m]|] eqn:Hm; try done.
  apply strip_prefix_Some in Hm as ->. intros [= <- <-].
  by rewrite Hcut.
Qed.

Lemma match_resource_name_complete (pub mid : string) :
  pub ≠ "" → str_in "/" pub = false → mid ≠ "" →
  match_resource_name ("publishers/" +:+ pub +:+ "/models/" +:+ mid)
  = Some (pub, mid).
Proof.
  intros Hp Hno Hm. unfold match_resource_name.
  rewrite strip_prefix_app.
  change ("/models/" +:+ mid) with (String "/" ("models/" +:+ mid)).
  rewrite (break_at_app "/" pub _ Hno).
  destruct pub as [|c p]; [done|].
  change (String "/" ("models/" +:+ mid)) with ("/models/" +:+ mid).
  rewrite strip_prefix_app. by destruct mid.
Qed.

(** X6. Parsing a resource name and writing it back are inverse: the
    line [publishers/P/models/M] is read as [(P, M)] when [P] is not
    empty and has no slash and [M] is not empty, and a line is only read
    as [(P, M)] when it is that line and [P] and [M] are of that kind. *)
Theorem match_resource_name_round_trip (line pub mid : string) :
  match_resource_name line = Some (pub, mid)
  ↔ line = resource_name pub mid
    ∧ pub ≠ "" ∧ str_in "/" pub = false ∧ mid ≠ "".
Proof.
  split.
  - apply match_resource_name_sound.
  - intros (-> & Hp & Hno & Hm). by apply match_resource_name_complete.
Qed.

Lemma match_resource_name_round_trip_witness :
  match_resource_name "publishers/google/models/gemini-2.5-pro@001"
  = Some ("google", "gemini-2.5-pro@001").
Proof.
  apply (proj2 (match_resource_name_round_trip
                  "publishers/google/models/gemini-2.5-pro@001"
                  "google" "gemini-2.5-pro@001")).
  by repeat split.
Defined.

(** ** The listing of the Model Garden *)

Lemma llm_regex_search_family (mid : string) :
  llm_regex_search mid = true ↔ llm_family mid.
Proof.
  unfold llm_regex_search, llm_family. rewrite existsb_exists.
  split.
  - intros (pat & Hin & Hpat). apply list_elem_of_In in Hin.
    apply str_in_app in Hpat as (pre & post & Hpat).
    by exists pat, pre, post.
  - intros (pat & pre & post & Hin & Hpat). exists pat.
    split; [by apply list_elem_of_In|].
    apply str_in_app. by exists pre, post.
Qed.

Lemma PUBLISHERS_well_formed (pub : string) :
  pub ∈ PUBLISHERS → pub ≠ "" ∧ str_in "/" pub = false.
Proof.
  unfold PUBLISHERS. intros H.
  repeat (apply elem_of_cons in H as [->|H]); [done..|].
  by apply elem_of_nil in H.
Qed.

Lemma keep_line_Some (line pub mid : string) :
  keep_line line = Some (pub, mid)
  ↔ line = resource_name pub mid ∧ pub ∈ PUBLISHERS ∧ mid ≠ ""
    ∧ llm_family mid.
Proof.
  rewrite <- llm_regex_search_family. unfold keep_line, resource_name. split.
  - destruct line as [|c line]; [done|].
    destruct (match_resource_name (String c line)) as [[p m]|] eqn:Hm; [|done].
    apply match_resource_name_sound in Hm as (-> & _ & _ & Hne).
    case_bool_decide; [|done]. simpl.
    destruct (llm_regex_search m) eqn:Hllm; [|done]. simpl.
    by intros [= <- <-].
  - intros (-> & Hpub & Hmid & Hllm).
    destruct (PUBLISHERS_well_formed _ Hpub) as [Hne Hslash].
    assert (match_resource_name
              ("publishers/" +:+ pub +:+ "/models/" +:+ mid)
            = Some (pub, mid)) as Hm
      by by apply match_resource_name_complete.
    rewrite Hm, Hllm. rewrite bool_decide_eq_true_2 by done. simpl.
    by destruct pub.
Qed.

(** X7. When the listing command succeeds, the models fetched are those
    whose resource name is a line of its stripped output, whose publisher
    is one of the five looked for, and whose identifier is not empty and
    belongs to a family of language models, which is told without regard
    to case, as [re.IGNORECASE] has it: also the dotted and the dotless i,
    the long s and the Kelvin sign count as i, s and k. They come in the
    order of the lines. *)
Theorem fetch_model_garden_models_lists (stdout stderr : string) :
  let lines := split newline (strip stdout) in
  ∃ models,
    fetch_model_garden_models (Completed 0 stdout stderr) = Returns models
    ∧ (∀ pub mid,
         (pub, mid) ∈ models
         ↔ resource_name pub mid ∈ lines ∧ pub ∈ PUBLISHERS ∧ mid ≠ ""
           ∧ llm_family mid)
    ∧ (λ pm, resource_name pm.1 pm.2) <$> models `sublist_of` lines.
Proof.
  intros lines. eexists. split; [reflexivity|]. fold lines. split.
  - intros pub mid. rewrite list_elem_of_omap. split.
    + intros (line & Hin & Hk). apply keep_line_Some in Hk as (-> & ?).
      by split.
    + intros (Hin & Hrest). exists (resource_name pub mid).
      split; [done|]. by apply keep_line_Some.
  - induction lines as [|line lines IH]; [done|]. csimpl.
    destruct (keep_line line) as [[p m]|] eqn:Hk; csimpl.
    + apply keep_line_Some in Hk as (-> & _). by apply sublist_skip.
    + by apply sublist_cons.
Qed.

Lemma fetch_model_garden_models_lists_witness :
  ∃ models,
    fetch_model_garden_models
      (Completed 0
         (no_break_space +:+ "publishers/mistral-ai/models/Mi" +:+ long_s
          +:+ "tral-7b" +:+ line_end +:+ "publishers/google/models/bert"
          +:+ line_end)
         "")
    = Returns models
    ∧ ("mistral-ai", "Mi" +:+ long_s +:+ "tral-7b") ∈ models
    ∧ ("google", "bert") ∉ models.
Proof.
  destruct (fetch_model_garden_models_lists
              (no_break_space +:+ "publishers/mistral-ai/models/Mi" +:+ long_s
               +:+ "tral-7b" +:+ line_end +:+ "publishers/google/models/bert"
               +:+ line_end)
              "") as (models & Hrun & Hin & _).
  exists models. split; [exact Hrun|]. split.
  - apply Hin. split; [|split; [|split]].
    + vm_compute. by left.
    + unfold PUBLISHERS. rewrite !elem_of_cons. tauto.
    + done.
    + apply llm_regex_search_family. reflexivity.
  - intros Hbert. apply Hin in Hbert as (_ & _ & _ & Hfam).
    apply llm_regex_search_family in Hfam. discriminate Hfam.
Defined.

(** ** The candidates *)

Lemma expand_one_union (expanded : gset (string * string))
    (pm : string * string) :
  expand_one expanded pm = expanded ∪ expand_one ∅ pm.
Proof.
  destruct pm as [pub mid]. unfold expand_one.
  destruct (negb _), (String.eqb pub "anthropic");
    rewrite ?union_empty_l_L, ?union_empty_r_L, ?union_assoc_L; done.
Qed.

Lemma elem_of_foldl_expand_one (x : string * string)
    (expanded : gset (string * string)) (models : list (string * string)) :
  x ∈ foldl expand_one expanded models
  ↔ x ∈ expanded ∨ ∃ pm, pm ∈ models ∧ x ∈ expand_one ∅ pm.
Proof.
  revert expanded. induction models as [|pm models IH]; intros expanded.
  - simpl. split; [by left|]. intros [?|(pm & Hpm & _)]; [done|].
    by apply elem_of_nil in Hpm.
  - simpl. rewrite IH, expand_one_union, elem_of_union. split.
    + intros [[?|?]|(pm' & ? & ?)]; [by left|right..].
      * exists pm. split; [by left|done].
      * exists pm'. split; [by right|done].
    + intros [?|(pm' & [->|?]%elem_of_cons & ?)].
      * by left; left.
      * by left; right.
      * right. by exists pm'.
Qed.

Lemma elem_of_foldl_mistral (x : string * string)
    (expanded : gset (string * string)) (mids : list string) :
  x ∈ foldl (λ expanded mid, expanded ∪ {[("mistral-ai", mid)]})
        expanded mids
  ↔ x ∈ expanded ∨ ∃ mid, mid ∈ mids ∧ x = ("mistral-ai", mid).
Proof.
  revert expanded. induction mids as [|mid mids IH]; intros expanded.
  - simpl. split; [by left|]. intros [?|(mid & Hmid & _)]; [done|].
    by apply elem_of_nil in Hmid.
  - simpl. rewrite IH, elem_of_union, elem_of_singleton. split.
    + intros [[?|?]|(mid' & ? & ?)]; [by left|right..].
      * exists mid. split; [by left|done].
      * exists mid'. split; [by right|done].
    + intros [?|(mid' & [->|?]%elem_of_cons & ?)].
      * by left; left.
      * by left; right.
      * right. by exists mid'.
Qed.

(** A version suffix is what follows the first [@]. *)
Lemma base_model_spec (mid : string) :
  (break_at "@" mid).1 ≠ mid ↔
  ∃ version, mid = (break_at "@" mid).1 +:+ "@" +:+ version.
Proof.
  destruct (break_at_spec "@" mid) as (Hcut & Hno & Hrest).
  destruct (break_at "@" mid) as [base rest]. cbn [fst snd] in *. split.
  - intros Hne. destruct Hrest as [->|[version ->]].
    + destruct Hne. rewrite Hcut. clear. induction base as [|c b IH]; [done|].
      by rewrite app_cons, <- IH.
    + by exists version.
  - intros [version Hv] Hbase. subst mid.
    apply not_true_iff_false in Hno. apply Hno.
    apply str_in_app. exists base, version. by rewrite <- Hv.
Qed.

Lemma elem_of_expand_one (x : string * string) (pub mid : string) :
  x ∈ expand_one ∅ (pub, mid) →
  x = (pub, mid)
  ∨ ∃ version,
      x = (pub, (break_at "@" mid).1)
      ∧ mid = (break_at "@" mid).1 +:+ "@" +:+ version.
Proof.
  unfold expand_one.
  destruct (String.eqb_spec (break_at "@" mid).1 mid) as [E|E]; simpl.
  - destruct (String.eqb pub "anthropic");
      rewrite ?elem_of_union, ?elem_of_singleton, ?elem_of_empty; tauto.
  - apply base_model_spec in E as [version Hv].
    destruct (String.eqb pub "anthropic");
      rewrite ?elem_of_union, ?elem_of_singleton, ?elem_of_empty;
      intros H; repeat (destruct H as [H|H]); try done;
      try (by left); right; by exists version.
Qed.

(** X8. When the listing yields models, the candidates are pairwise
    distinct and are exactly: the models listed, each listed model with
    its [@version] suffix removed, and the six Mistral identifiers added
    by hand. *)
Theorem get_model_patterns_expansion (run : run_result)
    (models : list (string * string)) :
  fetch_model_garden_models run = Returns models → models ≠ [] →
  ∃ patterns,
    get_model_patterns true run = Returns patterns
    ∧ NoDup patterns
    ∧ ∀ pub mid,
        (pub, mid) ∈ patterns
        ↔ (pub, mid) ∈ models
          ∨ (∃ version,
               (pub, mid +:+ "@" +:+ version) ∈ models
               ∧ str_in "@" mid = false)
          ∨ (pub = "mistral-ai" ∧ mid ∈ mistral_specific_models).
Proof.
  intros Hfetch Hne. unfold get_model_patterns. rewrite Hfetch.
  assert (nonempty models = true) as -> by by destruct models.
  eexists. split; [done|]. split; [apply NoDup_elements|].
  intros pub mid. rewrite elem_of_elements. unfold expanded_set.
  rewrite elem_of_foldl_mistral, elem_of_foldl_expand_one,
    elem_of_list_to_set.
  split.
  - intros [[?|([p m] & Hin & Hx)]|(m & Hm & [= -> ->])].
    + by left.
    + apply elem_of_expand_one in Hx as [[= -> ->]|(v & [= -> ->] & Hv)];
        [by left|].
      right; left. exists v. rewrite <- Hv. split; [done|].
      by destruct (break_at_spec "@" m) as (_ & ? & _).
    + by right; right.
  - intros [?|[(v & Hin & Hno)|[-> Hm]]].
    + by left; left.
    + left; right. exists (pub, mid +:+ "@" +:+ v). split; [done|].
      unfold expand_one.
      change (mid +:+ "@" +:+ v) with (mid +:+ String "@" v).
      rewrite (break_at_app "@" mid v Hno). cbn [fst].
      destruct (String.eqb_spec mid (mid +:+ String "@" v)) as [E|_].
      * rewrite E in Hno at 1. apply not_true_iff_false in Hno.
        destruct Hno. apply str_in_app. by exists mid, v.
      * simpl. destruct (String.eqb pub "anthropic"); set_solver.
    + right. by exists mid.
Qed.

Lemma get_model_patterns_expansion_witness :
  ∃ patterns,
    get_model_patterns true
      (Completed 0 "publishers/google/models/gemini-2.5-pro@001" "")
    = Returns patterns
    ∧ ("google", "gemini-2.5-pro") ∈ patterns
    ∧ ("google", "gemini-2.5-pro@001") ∈ patterns
    ∧ ("mistral-ai", "mistral-ocr") ∈ patterns.
Proof.
  destruct (get_model_patterns_expansion
              (Completed 0 "publishers/google/models/gemini-2.5-pro@001" "")
              [("google", "gemini-2.5-pro@001")] eq_refl ltac:(done))
    as (patterns & Hrun & _ & Hin).
  exists patterns. split; [exact Hrun|]. split; [|split]; apply Hin.
  - right; left. exists "001". split; [by left|reflexivity].
  - left. by left.
  - right; right. split; [reflexivity|]. by do 2 right; left.
Defined.

Lemma fetch_publishers (run : run_result) (models : list (string * string))
    (pub mid : string) :
  fetch_model_garden_models run = Returns models →
  (pub, mid) ∈ models → pub ∈ PUBLISHERS.
Proof.
  destruct run as [rc out err|e]; simpl.
  - destruct (negb (rc =? 0)); intros [= <-] Hin;
      [by apply elem_of_nil in Hin|].
    apply list_elem_of_omap in Hin as (line & _ & Hk).
    by apply keep_line_Some in Hk as (_ & ? & _).
  - destruct e; try done; intros [= <-] Hin; by apply elem_of_nil in Hin.
Qed.

Lemma static_patterns_publishers :
  Forall (λ pm, pm.1 ∈ PUBLISHERS) static_patterns.
Proof. apply (bool_decide_unpack _). by vm_compute. Qed.

Lemma get_model_patterns_publishers (use_dynamic : bool)
    (run : run_result) (patterns : list (string * string))
    (pub mid : string) :
  get_model_patterns use_dynamic run = Returns patterns →
  (pub, mid) ∈ patterns → pub ∈ PUBLISHERS.
Proof.
  intros Hrun Hin.
  assert ((pub, mid) ∈ static_patterns → pub ∈ PUBLISHERS) as Hstatic.
  { intros Hs.
    by apply (proj1 (Forall_forall _ _) static_patterns_publishers
                (pub, mid)). }
  revert Hrun. unfold get_model_patterns.
  destruct use_dynamic; [|intros [= <-]; by apply Hstatic].
  destruct (fetch_model_garden_models run) as [models| |] eqn:Hfetch;
    try done.
  destruct (nonempty models); intros [= <-]; [|by apply Hstatic].
  apply elem_of_elements in Hin. unfold expanded_set in Hin.
  apply elem_of_foldl_mistral in Hin as [Hin|(m & _ & [= -> ->])];
    [|by repeat constructor].
  apply elem_of_foldl_expand_one in Hin as [Hin|([p m] & Hpm & Hin)].
  - apply elem_of_list_to_set in Hin. by eapply fetch_publishers.
  - apply elem_of_expand_one in Hin as [[= -> ->]|(v & [= -> ->] & _)];
      by eapply fetch_publishers.
Qed.

(** X9. The candidates of a run are never empty, are pairwise distinct,
    and only name the five publishers looked for, whether they come from
    the listing or from the static table. *)
Theorem get_model_patterns_well_formed (use_dynamic : bool)
    (run : run_result) (patterns : list (string * string)) :
  get_model_patterns use_dynamic run = Returns patterns →
  patterns ≠ [] ∧ NoDup patterns
  ∧ ∀ pub mid, (pub, mid) ∈ patterns → pub ∈ PUBLISHERS.
Proof.
  intros Hrun.
  destruct (get_model_patterns_candidates _ _ _ Hrun) as [Hnd Hne].
  split; [by destruct patterns|]. split; [done|].
  intros pub mid. by apply (get_model_patterns_publishers use_dynamic run).
Qed.

Lemma get_model_patterns_well_formed_witness :
  ∃ patterns,
    get_model_patterns true
      (Completed 0 "publishers/google/models/gemini-2.5-pro@001" "")
    = Returns patterns
    ∧ patterns ≠ [] ∧ NoDup patterns
    ∧ ∀ pub mid, (pub, mid) ∈ patterns → pub ∈ PUBLISHERS.
Proof.
  eexists. split; [reflexivity|].
  apply (get_model_patterns_well_formed true
           (Completed 0 "publishers/google/models/gemini-2.5-pro@001" "")).
  reflexivity.
Defined.

(** ** How a run of the discovery can end *)

Lemma get_model_patterns_never_exits (use_dynamic : bool) (run : run_result)
    (c : Z) :
  get_model_patterns use_dynamic run ≠ Exits c.
Proof.
  unfold get_model_patterns. destruct use_dynamic; [|done].
  destruct run as [rc out err|e]; simpl.
  - destruct (negb (rc =? 0)); simpl; [done|].
    by destruct (nonempty _).
  - by destruct e.
Qed.

Lemma get_model_patterns_raises (use_dynamic : bool) (run : run_result)
    (e : exn) :
  get_model_patterns use_dynamic run = Raises e
  ↔ use_dynamic = true ∧ run = RunRaises e
    ∧ e ≠ subprocess_TimeoutExpired ∧ e ≠ FileNotFoundError.
Proof.
  unfold get_model_patterns. destruct use_dynamic; [|by split; [|intros [? _]]].
  destruct run as [rc out err|e']; simpl.
  - destruct (negb (rc =? 0)); simpl;
      [|destruct (nonempty _)]; by split; [|intros (_ & ? & _)].
  - destruct e'; simpl; split; try done;
      try (by intros (_ & [= <-] & ? & ?));
      by intros [= <-].
Qed.

(** X10. A run of [discover_models] exits, always with code 1, exactly
    when the token command returns a non-zero code. It raises exactly
    when the token command raises, or when, with a token and in dynamic
    mode, the listing command raises something other than a timeout or a
    missing executable: such an exception is not turned into the static
    fallback. *)
Theorem discover_models_outcomes (project : string) (use_static : bool)
    (continent : option string) (w : world) :
  (∀ c,
     discover_models project use_static continent w = Exits c
     ↔ c = 1
       ∧ ∃ returncode stdout stderr,
           token_run w = Completed returncode stdout stderr
           ∧ returncode ≠ 0)
  ∧ (∀ e,
       discover_models project use_static continent w = Raises e
       ↔ token_run w = RunRaises e
         ∨ ((∃ returncode stdout stderr,
               token_run w = Completed returncode stdout stderr
               ∧ returncode = 0)
            ∧ use_static = false ∧ garden_run w = RunRaises e
            ∧ e ≠ subprocess_TimeoutExpired ∧ e ≠ FileNotFoundError)).
Proof.
  split.
  - intros c. unfold discover_models, get_access_token.
    destruct (token_run w) as [rc out err|e].
    + destruct (Z.eqb_spec rc 0) as [->|Hrc].
      * split; [|by intros (_ & ? & ? & ? & [= <- _ _] & ?)].
        destruct (get_model_patterns (negb use_static) (garden_run w))
          as [patterns|e|code] eqn:Hp; [|done|].
        -- destruct (get_model_patterns_candidates _ _ _ Hp) as [_ ->].
           by rewrite sweep_run.
        -- by apply get_model_patterns_never_exits in Hp.
      * split; [intros [= <-]; split; [done|]; by exists rc, out, err|].
        by intros [-> _].
    + split; [done|]. by intros (_ & ? & ? & ? & ? & _).
  - intros e. unfold discover_models, get_access_token.
    destruct (token_run w) as [rc out err|e'].
    + destruct (Z.eqb_spec rc 0) as [->|Hrc].
      * pose proof (get_model_patterns_raises (negb use_static)
                      (garden_run w) e) as Hr.
        destruct (get_model_patterns (negb use_static) (garden_run w))
          as [patterns| |] eqn:Hp.
        -- destruct (get_model_patterns_candidates _ _ _ Hp) as [_ ->].
           rewrite sweep_run. split; [done|].
           intros [?|(_ & -> & Hg & H1 & H2)]; [done|].
           discriminate (proj2 Hr (conj eq_refl (conj Hg (conj H1 H2)))).
        -- split.
           ++ intros [= ->]. right.
              destruct (proj1 Hr eq_refl) as (Hs & Hg & H1 & H2).
              split; [by exists 0, out, err|].
              split; [by destruct use_static|done].
           ++ intros [?|(_ & -> & Hg & H1 & H2)]; [done|].
              by injection (proj2 Hr (conj eq_refl (conj Hg (conj H1 H2))))
                as ->.
        -- by destruct (get_model_patterns_never_exits
                          (negb use_static) (garden_run w) code).
      * split; [done|].
        intros [?|((? & ? & ? & [= <- _ _] & ?) & _)]; done.
    + split; [intros [= ->]; by left|].
      intros [[= ->]|((? & ? & ? & ? & _) & _)]; done.
Qed.

Lemma discover_models_outcomes_witness :
  discover_models "p" false None world_without_login = Exits 1
  ∧ discover_models "p" false (Some "us") world_without_listing
    = Raises (other_Exception "PermissionError").
Proof.
  split.
  - apply (proj1 (discover_models_outcomes "p" false None
                    world_without_login)).
    split; [reflexivity|].
    exists 1, "", "ERROR: no credentialed accounts".
    split; [reflexivity|lia].
  - apply (proj2 (discover_models_outcomes "p" false (Some "us")
                    world_without_listing)).
    right. split; [by exists 0, "ya29.token", ""|]. by repeat split.
Defined.

(** ** What a report holds *)

Lemma CONTINENT_REGIONS_nonempty (c : string) (rs : list string) :
  CONTINENT_REGIONS !! c = Some rs → rs ≠ [].
Proof.
  unfold CONTINENT_REGIONS. intros H.
  apply elem_of_list_to_map_2 in H.
  repeat (apply elem_of_cons in H as [H|H]; [by simplify_eq|]).
  by apply elem_of_nil in H.
Qed.

(** Where the entry of a unit of work was found. *)
Lemma unit_of_work_located (w : network) (project access_token : string)
    (rs : option (list string)) (pm : string * string) (m : model_info) :
  (unit_of_work project access_token rs pm w).1 = Returns (Some m) →
  match rs with
  | Some (r :: rest) =>
      ∃ l, located m = regions l ∧ l ≠ [] ∧ l `sublist_of` (r :: rest)
  | _ => located m = endpoint "global"
  end.
Proof.
  assert ((check_model_availability project pm.1 pm.2 access_token None w).1
          = Returns (Some m) → located m = endpoint "global") as Hglobal.
  { destruct (probe_summary w project pm.1 pm.2 access_token None)
      as (v & -> & Hv).
    simpl. intros [= ->]. by destruct (Hv m eq_refl) as (_ & _ & _ & ? & _). }
  unfold unit_of_work. destruct rs as [[|r rest]|]; try done.
  apply check_model_in_regions_located.
Qed.

(** Every entry of a report is what the unit of work of some candidate
    returned. *)
Lemma report_entry (project : string) (use_static : bool)
    (continent : option string) (w : world) (report : list model_info)
    (m : model_info) :
  discover_models project use_static continent w = Returns report →
  m ∈ report →
  ∃ access_token patterns pm,
    get_access_token (token_run w) = Returns access_token
    ∧ get_model_patterns (negb use_static) (garden_run w) = Returns patterns
    ∧ pm ∈ as_completed w patterns
    ∧ (unit_of_work project access_token
         (if truthy continent
          then CONTINENT_REGIONS !! default "" continent else None)
         pm (net w)).1
      = Returns (Some m).
Proof.
  intros Hrun Hm.
  destruct (discover_models_inv _ _ _ _ _ Hrun)
    as (tok & patterns & Ht & Hp & Hs).
  rewrite sweep_run in Hs. injection Hs as <-.
  rewrite sort_by_Permutation in Hm.
  apply list_elem_of_omap in Hm as (pm & Hpm & Hc).
  exists tok, patterns, pm. repeat split; try done.
  destruct (unit_of_work_summary (net w) project tok
              (if truthy continent
               then CONTINENT_REGIONS !! default "" continent else None) pm)
    as (v & Hv & _).
  rewrite Hv in Hc |- *. simpl in Hc. by rewrite Hc.
Qed.

(** X11. In a report for a continent, every entry lists regions: at
    least one, all of that continent, in the order of the table. In a
    report without a continent, with an empty one, or with one that is
    not in the table, every entry was found on the global endpoint. *)
Theorem discover_models_endpoints (project : string) (use_static : bool)
    (continent : option string) (w : world) (report : list model_info)
    (m : model_info) :
  discover_models project use_static continent w = Returns report →
  m ∈ report →
  (∀ c rs,
     continent = Some c → c ≠ "" → CONTINENT_REGIONS !! c = Some rs →
     ∃ l, located m = regions l ∧ l ≠ [] ∧ l `sublist_of` rs)
  ∧ (continent = None ∨ continent = Some ""
     ∨ (∃ c, continent = Some c ∧ CONTINENT_REGIONS !! c = None) →
     located m = endpoint "global").
Proof.
  intros Hrun Hm.
  destruct (report_entry _ _ _ _ _ _ Hrun Hm)
    as (tok & patterns & pm & _ & _ & _ & Hunit).
  apply unit_of_work_located in Hunit. split.
  - intros c rs -> Hc Hrs. destruct c as [|a c]; [done|].
    simpl in Hunit. rewrite Hrs in Hunit.
    destruct rs as [|r rest]; [|done].
    by apply CONTINENT_REGIONS_nonempty in Hrs.
  - intros [->|[->|(c & -> & Hnone)]]; try done.
    destruct c as [|a c]; [done|]. simpl in Hunit. by rewrite Hnone in Hunit.
Qed.

Lemma discover_models_endpoints_witness :
  ∃ report,
    discover_models "p" true (Some "africa") sample_world = Returns report
    ∧ ∃ m, m ∈ report ∧ located m = endpoint "global".
Proof.
  eexists. split.
  - rewrite (discover_models_returns "p" true (Some "africa") sample_world
               "ya29.token" static_patterns eq_refl eq_refl).
    apply sweep_run.
  - assert (∃ m,
      (unit_of_work "p" "ya29.token" None ("google", "gemini-2.5-pro")
         flaky_network).1 = Returns (Some m)) as [m Hunit]
      by by eexists.
    assert (m ∈ sort_by sort_key
              (omap (λ pm, contribution
                             (unit_of_work "p" "ya29.token" None pm
                                flaky_network).1)
                 (reverse static_patterns))) as Hin.
    { rewrite sort_by_Permutation. apply list_elem_of_omap.
      exists ("google", "gemini-2.5-pro"). split; [|by rewrite Hunit].
      apply elem_of_reverse, (bool_decide_unpack _). by vm_compute. }
    exists m. split; [exact Hin|].
    apply (discover_models_endpoints "p" true (Some "africa") sample_world
             _ m
             (eq_trans
                (discover_models_returns "p" true (Some "africa")
                   sample_world "ya29.token" static_patterns eq_refl eq_refl)
                (sweep_run _ _ _ _ _))
             Hin).
    right; right. by exists "africa".
Defined.

(** X12. When the pool hands back each unit once, a report only lists
    candidates: the key of every entry is one of the candidates of the
    run, its publisher is one of the five looked for, and the report has
    at most as many entries as there are candidates. *)
Theorem report_within_candidates (project : string) (use_static : bool)
    (continent : option string) (w : world) (report : list model_info) :
  (∀ l, as_completed w l ≡ₚ l) →
  discover_models project use_static continent w = Returns report →
  ∃ patterns,
    get_model_patterns (negb use_static) (garden_run w) = Returns patterns
    ∧ (∀ m, m ∈ report →
         sort_key m ∈ patterns ∧ publisher m ∈ PUBLISHERS)
    ∧ (length report ≤ length patterns)%nat.
Proof.
  intros Hperm Hrun.
  destruct (discover_models_inv _ _ _ _ _ Hrun)
    as (tok & patterns & Ht & Hp & Hs).
  exists patterns. split; [done|].
  rewrite sweep_run in Hs. injection Hs as <-.
  set (rs := if truthy continent
             then CONTINENT_REGIONS !! default "" continent else None).
  pose proof (contribution_keys project tok rs (net w)
                (as_completed w patterns)) as Hsub.
  split.
  - intros m Hm. rewrite sort_by_Permutation in Hm.
    assert (sort_key m ∈ patterns) as Hkey.
    { rewrite <- (Hperm patterns).
      eapply elem_of_sublist; [|exact Hsub].
      by apply list_elem_of_fmap_2. }
    split; [done|].
    by apply (get_model_patterns_publishers _ _ _ (publisher m) (model_id m)
                Hp).
  - rewrite sort_by_Permutation.
    rewrite <- (Permutation_length (Hperm patterns)).
    rewrite <- (length_fmap sort_key). by apply sublist_length.
Qed.

Lemma report_within_candidates_witness :
  ∃ report patterns,
    discover_models "p" true None sample_world = Returns report
    ∧ get_model_patterns false (garden_run sample_world) = Returns patterns
    ∧ (∀ m, m ∈ report →
         sort_key m ∈ patterns ∧ publisher m ∈ PUBLISHERS)
    ∧ (length report ≤ length patterns)%nat.
Proof.
  destruct (report_within_candidates "p" true None sample_world _
              reverse_Permutation
              (eq_trans
                 (discover_models_returns "p" true None sample_world
                    "ya29.token" static_patterns eq_refl eq_refl)
                 (sweep_run _ _ _ _ _)))
    as (patterns & Hp & Hin & Hlen).
  eexists. exists patterns. split; [|by split].
  rewrite (discover_models_returns "p" true None sample_world
             "ya29.token" static_patterns eq_refl eq_refl).
  apply sweep_run.
Defined.

(** A reply that is neither a 200 nor a 403 leaves the probe without a
    result. *)
Lemma probe_absent (w : network) (project pub mid access_token : string)
    (region : option string) :
  match w (probe_request project pub mid access_token region) with
  | Response code _ => code ≠ 200 ∧ code ≠ 403
  | Throws _ => True
  end →
  (check_model_availability project pub mid access_token region w).1
  = Returns None.
Proof.
  unfold_probe.
  destruct (w _) as [code body|e]; [|by destruct e].
  intros [H200 H403].
  destruct (Z.eqb_spec code 200); [done|].
  destruct (Z.eqb_spec code 403); [done|].
  by destruct (code =? 404).
Qed.

(** X13. When no request is answered with a 200 or a 403, whether by
    another status code or by an exception, the report is empty. *)
Theorem discover_models_nothing_found (project : string) (use_static : bool)
    (continent : option string) (w : world) (report : list model_info) :
  (∀ req,
     match net w req with
     | Response code _ => code ≠ 200 ∧ code ≠ 403
     | Throws _ => True
     end) →
  discover_models project use_static continent w = Returns report →
  report = [].
Proof.
  intros Hnet Hrun. destruct report as [|m report]; [done|]. exfalso.
  destruct (report_entry _ _ _ _ _ m Hrun ltac:(by left))
    as (tok & patterns & pm & _ & _ & _ & Hunit).
  revert Hunit. unfold unit_of_work.
  destruct (if truthy continent
            then CONTINENT_REGIONS !! default "" continent else None)
    as [[|r rest]|]; try (by rewrite probe_absent by apply Hnet).
  rewrite check_model_in_regions_run. simpl.
  rewrite !(proj2 (empty_filter _ _)); [done|..];
    intros x _; unfold regional_status;
    by rewrite probe_absent by apply Hnet.
Qed.

Lemma discover_models_nothing_found_witness :
  discover_models "p" true (Some "asia") world_without_models = Returns [].
Proof.
  assert (∃ report,
    discover_models "p" true (Some "asia") world_without_models
    = Returns report) as [report Hrun].
  { eexists.
    rewrite (discover_models_returns "p" true (Some "asia")
               world_without_models "ya29.token" static_patterns
               eq_refl eq_refl).
    apply sweep_run. }
  rewrite Hrun. f_equal.
  apply (discover_models_nothing_found "p" true (Some "asia")
           world_without_models report); [|exact Hrun].
  intros req. simpl. lia.
Defined.

(** ** The summary by publisher *)

Lemma count_model_lookup (acc : gmap string counts) (m : model_info)
    (pub : string) :
  count_model acc m !! pub
  = if decide (publisher m = pub) then
      let c := default {| available := 0; needs_action := 0 |} (acc !! pub) in
      Some (if decide (status m = "available")
            then {| available := available c + 1;
                    needs_action := needs_action c |}
            else {| available := available c;
                    needs_action := needs_action c + 1 |})
    else acc !! pub.
Proof.
  unfold count_model.
  destruct (decide (publisher m = pub)) as [<-|Hne].
  - destruct (String.eqb_spec (status m) "available") as [E|E];
      rewrite lookup_alter_eq; destruct (acc !! publisher m) as [c|] eqn:Hc;
      rewrite ?Hc, ?lookup_insert_eq; simpl; by case_decide.
  - destruct (String.eqb (status m) "available");
      rewrite lookup_alter_ne by done; destruct (acc !! publisher m);
      by rewrite ?lookup_insert_ne.
Qed.

(** X14. The summary has an entry for a publisher exactly when the report
    lists a model of that publisher; its two counts are the number of
    these models that are "available" and the number that are not, so
    they add up to the number of models of the publisher and are never
    both zero. *)
Theorem publisher_counts_tally (all_models : list model_info)
    (pub : string) :
  let mine := filter (λ m, publisher m = pub) all_models in
  publisher_counts all_models !! pub
  = match mine with
    | [] => None
    | _ =>
        Some {| available :=
                  Z.of_nat
                    (length (filter (λ m, status m = "available") mine));
                needs_action :=
                  Z.of_nat
                    (length (filter (λ m, status m ≠ "available") mine)) |}
    end
  ∧ ∀ c, publisher_counts all_models !! pub = Some c →
      available c + needs_action c = Z.of_nat (length mine)
      ∧ 1 ≤ available c + needs_action c.
Proof.
  intros mine.
  assert (publisher_counts all_models !! pub
          = match mine with
            | [] => None
            | _ =>
                Some {| available :=
                          Z.of_nat
                            (length
                               (filter (λ m, status m = "available") mine));
                        needs_action :=
                          Z.of_nat
                            (length
                               (filter (λ m, status m ≠ "available") mine))
                     |}
            end) as Htally.
  { subst mine. unfold publisher_counts.
    induction all_models as [|m l IH] using rev_ind; [done|].
    rewrite foldl_snoc, count_model_lookup, filter_app, IH.
    rewrite filter_cons, filter_nil.
    destruct (decide (publisher m = pub)) as [E|E];
      [|by rewrite app_nil_r].
    rewrite !filter_app, !length_app, !filter_cons, !filter_nil.
    destruct (filter (λ m0, publisher m0 = pub) l) as [|x mine] eqn:Hmine;
      simpl default; repeat case_decide; try done;
      cbv zeta; cbn [app available needs_action]; f_equal; f_equal;
      cbn [length]; lia. }
  split; [done|].
  intros c. rewrite Htally.
  pose proof (filter_app_complement (λ m, status m = "available") mine)
    as Hsplit.
  apply Permutation_length in Hsplit. rewrite length_app in Hsplit.
  destruct mine as [|x mine']; [done|]. intros [= <-]. simpl available.
  simpl needs_action. simpl length in *. lia.
Qed.

Lemma publisher_counts_tally_witness :
  publisher_counts sample_report !! "google"
  = Some {| available := 1; needs_action := 1 |}
  ∧ publisher_counts sample_report !! "meta" = None.
Proof.
  split.
  - exact (proj1 (publisher_counts_tally sample_report "google")).
  - exact (proj1 (publisher_counts_tally sample_report "meta")).
Defined.

(** ** The grouping of the table *)

Lemma shown_models_display (cur : option string) (l : list model_info) :
  shown_models (display_rows cur l) = l.
Proof.
  revert cur. induction l as [|m l IH]; intros cur; [done|].
  simpl. unfold shown_models in *.
  case_bool_decide; [destruct cur|]; csimpl; by rewrite IH.
Qed.

Lemma entry_lt_publisher (a b : model_info) :
  entry_lt a b →
  publisher a = publisher b
  ∨ String.ltb (publisher a) (publisher b) = true.
Proof.
  unfold entry_lt, key_lt, tuple_lt, sort_key. simpl.
  destruct (String.eqb_spec (publisher a) (publisher b)); auto.
Qed.

Lemma publishers_of_cons (m : model_info) (l : list model_info) :
  publishers_of (m :: l) = {[publisher m]} ∪ publishers_of l.
Proof. done. Qed.

Lemma size_add_fresh (x : string) (S : gset string) :
  size ({[x]} ∪ S) = Datatypes.S (size (S ∖ {[x]})).
Proof.
  assert ({[x]} ∪ S = {[x]} ∪ S ∖ {[x]}) as ->.
  { apply set_eq. intros y. rewrite !elem_of_union, elem_of_difference,
      !elem_of_singleton. destruct (decide (y = x)); tauto. }
  rewrite size_union, size_singleton; [done|].
  intros y. rewrite elem_of_difference, !elem_of_singleton. tauto.
Qed.

(** After a row of publisher [p], a sorted rest of the report costs one
    empty line for each other publisher it names. *)
Lemma blank_lines_display (p : string) (l : list model_info) :
  StronglySorted entry_lt l →
  Forall (λ x, p = publisher x ∨ String.ltb p (publisher x) = true) l →
  blank_lines (display_rows (Some p) l) = size (publishers_of l ∖ {[p]}).
Proof.
  intros Hsorted. revert p.
  induction Hsorted as [|m l Hl IH Hm]; intros p Hp.
  - assert (publishers_of [] ∖ {[p]} = (∅ : gset string)) as ->.
    { apply set_eq. intros y. unfold publishers_of.
      rewrite elem_of_difference, elem_of_list_to_set.
      split; [intros [Hy _]; by apply elem_of_nil in Hy|].
      by intros ?%elem_of_empty. }
    done.
  - apply Forall_cons in Hp as [Hpm Hp].
    rewrite publishers_of_cons. simpl.
    assert (Forall (λ x, publisher m = publisher x
                         ∨ String.ltb (publisher m) (publisher x) = true) l)
      as Hnext.
    { eapply Forall_impl; [exact Hm|]. intros x. apply entry_lt_publisher. }
    case_bool_decide as Hchange.
    + assert (publisher m ≠ p) as Hne by congruence.
      destruct Hpm as [?|Hlt]; [done|].
      unfold blank_lines in *. csimpl. rewrite (IH _ Hnext).
      assert (p ∉ publishers_of l) as Hfresh.
      { unfold publishers_of. rewrite elem_of_list_to_set, list_elem_of_fmap.
        intros (x & Hx & Hin).
        apply (proj1 (Forall_forall _ _) Hnext) in Hin as [E|Hlt'].
        - rewrite <- Hx in E. by subst.
        - rewrite <- Hx in Hlt'.
          pose proof (ltb_trans _ _ _ Hlt Hlt') as Hpp.
          by rewrite ltb_irrefl in Hpp. }
      rewrite <- size_add_fresh. f_equal.
      apply set_eq. intros y.
      rewrite elem_of_difference, !elem_of_union, !elem_of_singleton.
      split; [|tauto]. intros Hy. split; [done|].
      intros ->. destruct Hy as [?|?]; [by subst|done].
    + assert (publisher m = p) as <- by congruence.
      unfold blank_lines in *. csimpl. rewrite (IH _ Hnext). f_equal.
      apply set_eq. intros y.
      rewrite !elem_of_difference, !elem_of_union, !elem_of_singleton.
      tauto.
Qed.

(** X15. The table shows every model of the report once, in order. For a
    report sorted by publisher and model, the number of empty lines that
    separate the groups is one less than the number of publishers named:
    the models of a publisher form one group. *)
Theorem display_rows_groups (report : list model_info) :
  shown_models (display_rows None report) = report
  ∧ (StronglySorted entry_lt report →
     blank_lines (display_rows None report)
     = (size (publishers_of report) - 1)%nat).
Proof.
  split; [apply shown_models_display|].
  destruct report as [|m l]; [done|]. intros Hsorted.
  apply StronglySorted_inv in Hsorted as [Hl Hm].
  rewrite publishers_of_cons, size_add_fresh. simpl.
  change (blank_lines (row m :: display_rows (Some (publisher m)) l))
    with (blank_lines (display_rows (Some (publisher m)) l)).
  rewrite blank_lines_display; [lia|done|].
  eapply Forall_impl; [exact Hm|]. intros x. apply entry_lt_publisher.
Qed.

Lemma display_rows_groups_witness :
  blank_lines (display_rows None sample_report) = 1%nat
  ∧ shown_models (display_rows None sample_report) = sample_report.
Proof.
  split.
  - rewrite (proj2 (display_rows_groups sample_report)); [by vm_compute|].
    repeat constructor.
  - apply (proj1 (display_rows_groups sample_report)).
Defined.

(** ** The command line of the discovery *)

Lemma get_current_project_truthy (run : run_result) (project : string) :
  get_current_project run = Returns (Some project) → project ≠ "".
Proof.
  destruct run as [rc out err|e]; simpl; [|done].
  destruct (rc =? 0); [|done].
  destruct (strip out); [done|]. by intros [= <-].
Qed.

(** X16. [main] exits with code 1 when the project command fails or
    prints only blanks, those of Unicode that [str.strip] removes, and,
    with a project, when [--test] names no slash. With [--test P/M], where [P] has no slash, and a token it
    makes exactly one HTTP call, the test request of model [M] of
    publisher [P], and no discovery; [M] may itself hold slashes.
    Without [--test], or with an empty one, it runs the discovery with
    the project and the flags given. *)
Theorem main_dispatch (args : cli_arguments) (project_run : run_result)
    (w : world) :
  (∀ returncode stdout stderr,
     project_run = Completed returncode stdout stderr →
     returncode ≠ 0 ∨ strip stdout = "" →
     main args project_run w = Exits 1)
  ∧ (∀ project,
       get_current_project project_run = Returns (Some project) →
       (∀ test,
          arg_test args = Some test → test ≠ "" → str_in "/" test = false →
          main args project_run w = Exits 1)
       ∧ (∀ pub mid access_token,
            arg_test args = Some (pub +:+ "/" +:+ mid) →
            str_in "/" pub = false →
            get_access_token (token_run w) = Returns access_token →
            main args project_run w
            = Returns
                (tested [test_model_request pub mid project access_token]))
       ∧ (arg_test args = None ∨ arg_test args = Some "" →
          main args project_run w
          = match
              discover_models project (arg_static args) (arg_continent args)
                w
            with
            | Returns models => Returns (discovered models (arg_json args))
            | Raises e => Raises e
            | Exits c => Exits c
            end)).
Proof.
  split.
  - intros rc out err -> Hfail. unfold main. simpl.
    destruct (Z.eqb_spec rc 0) as [->|Hrc]; [|done].
    destruct Hfail as [Hrc|Hblank]; [done|by rewrite Hblank].
  - intros project Hproject.
    pose proof (get_current_project_truthy _ _ Hproject) as Hne.
    unfold main. rewrite Hproject.
    assert (truthy (Some project) = true) as -> by by destruct project.
    simpl negb. cbv iota. split; [|split].
    + intros test -> Htest Hslash.
      assert (truthy (Some test) = true) as -> by by destruct test.
      simpl default. by rewrite Hslash.
    + intros pub mid tok -> Hpub Htoken.
      assert (truthy (Some (pub +:+ "/" +:+ mid)) = true) as ->
        by by destruct pub.
      simpl default.
      assert (str_in "/" (pub +:+ "/" +:+ mid) = true) as ->
        by (apply str_in_app; by exists pub, mid).
      simpl negb. cbv iota.
      change (pub +:+ "/" +:+ mid) with (pub +:+ String "/" mid).
      rewrite (break_at_app "/" pub mid Hpub).
      by rewrite (test_model_with_token (net w) pub mid project project_run
                    (token_run w) tok Hne Htoken).
    + by intros [->| ->].
Qed.

Lemma main_dispatch_witness :
  main {| arg_test := Some "meta/llama/3.3"; arg_json := false;
          arg_static := false; arg_continent := None |}
    (Completed 0 "my-project" "") sample_world
  = Returns (tested [test_model_request "meta" "llama/3.3" "my-project"
                       "ya29.token"])
  ∧ main {| arg_test := Some "gemini-2.5-pro"; arg_json := false;
            arg_static := false; arg_continent := None |}
      (Completed 0 "my-project" "") sample_world
    = Exits 1
  ∧ main {| arg_test := None; arg_json := true;
            arg_static := true; arg_continent := None |}
      (Completed 1 "" "(unset)") sample_world
    = Exits 1
  ∧ main {| arg_test := None; arg_json := false;
            arg_static := false; arg_continent := None |}
      (Completed 0 (no_break_space +:+ line_end) "") sample_world
    = Exits 1
  ∧ main {| arg_test := Some "meta/llama"; arg_json := false;
            arg_static := false; arg_continent := None |}
      (Completed 0 (em_space +:+ "my-project" +:+ no_break_space +:+ line_end)
         "")
      sample_world
    = Returns (tested [test_model_request "meta" "llama" "my-project"
                         "ya29.token"]).
Proof.
  split; [|split; [|split; [|split]]].
  - apply (proj2 (main_dispatch
                    {| arg_test := Some "meta/llama/3.3"; arg_json := false;
                       arg_static := false; arg_continent := None |}
                    (Completed 0 "my-project" "") sample_world)
             "my-project" eq_refl); reflexivity.
  - apply (proj2 (main_dispatch
                    {| arg_test := Some "gemini-2.5-pro"; arg_json := false;
                       arg_static := false; arg_continent := None |}
                    (Completed 0 "my-project" "") sample_world)
             "my-project" eq_refl) with (test := "gemini-2.5-pro");
      [reflexivity|done|reflexivity].
  - apply (proj1 (main_dispatch
                    {| arg_test := None; arg_json := true;
                       arg_static := true; arg_continent := None |}
                    (Completed 1 "" "(unset)") sample_world)
             1 "" "(unset)"); [reflexivity|left; lia].
  - apply (proj1 (main_dispatch
                    {| arg_test := None; arg_json := false;
                       arg_static := false; arg_continent := None |}
                    (Completed 0 (no_break_space +:+ line_end) "") sample_world)
             0 (no_break_space +:+ line_end) ""); [reflexivity|right].
    reflexivity.
  - apply (proj2 (main_dispatch
                    {| arg_test := Some "meta/llama"; arg_json := false;
                       arg_static := false; arg_continent := None |}
                    (Completed 0
                       (em_space +:+ "my-project" +:+ no_break_space
                        +:+ line_end) "")
                    sample_world)
             "my-project" eq_refl); reflexivity.
Defined.

(** ** The Gemini client, continued *)

(** X17. A key that [get_api_key] returns is never empty and never
    "1234"; it is the [--api-key] argument, or, when that argument is
    absent or empty, the value of [GEMINI_API_KEY]. An argument of "1234"
    ends the run even when the environment holds a usable key. *)
Theorem get_api_key_sound (arg_key : option string)
    (environ : gmap string string) (key : string) :
  (get_api_key arg_key environ = Returns key →
   key ≠ "" ∧ key ≠ "1234"
   ∧ (arg_key = Some key
      ∨ ((arg_key = None ∨ arg_key = Some "")
         ∧ environ !! "GEMINI_API_KEY" = Some key)))
  ∧ get_api_key (Some "1234") environ = Exits 1.
Proof.
  split; [|done].
  unfold get_api_key, or_else.
  destruct arg_key as [[|c k]|]; simpl truthy; cbv iota.
  - destruct (environ !! "GEMINI_API_KEY") as [[|d e]|] eqn:He; try done.
    change (negb (truthy (Some (String d e)))) with false. rewrite orb_false_l.
    destruct (String.eqb_spec (String d e) "1234"); [done|].
    intros [= <-]. repeat split; try done. right. by split; [right|].
  - change (negb (truthy (Some (String c k)))) with false. rewrite orb_false_l.
    destruct (String.eqb_spec (String c k) "1234"); [done|].
    intros [= <-]. repeat split; try done. by left.
  - destruct (environ !! "GEMINI_API_KEY") as [[|d e]|] eqn:He; try done.
    change (negb (truthy (Some (String d e)))) with false. rewrite orb_false_l.
    destruct (String.eqb_spec (String d e) "1234"); [done|].
    intros [= <-]. repeat split; try done. right. by split; [left|].
Qed.

Lemma get_api_key_sound_witness :
  "AIza-sample" ≠ "" ∧ "AIza-sample" ≠ "1234"
  ∧ (@None string = Some "AIza-sample"
     ∨ ((@None string = None ∨ @None string = Some "")
        ∧ sample_environ !! "GEMINI_API_KEY" = Some "AIza-sample")).
Proof.
  apply (proj1 (get_api_key_sound None sample_environ "AIza-sample")).
  reflexivity.
Defined.



(** X19. The thinking configuration always has exactly two fields:
    [includeThoughts], which is true unless [--no-thoughts] is given, and
    one of [thinkingBudget] and [thinkingLevel]. *)
Theorem thinking_config_fields (args : arguments) :
  size (thinking_config args) = 2%nat
  ∧ thinking_config args !! "includeThoughts"
    = Some (VBool (negb (no_thoughts args)))
  ∧ ∀ field, is_Some (thinking_config args !! field) →
      field = "includeThoughts" ∨ field = "thinkingBudget"
      ∨ field = "thinkingLevel".
Proof.
  unfold thinking_config.
  destruct (thinking_budget args >? 0); repeat split.
  - intros field [v Hv].
    destruct (decide (field = "thinkingBudget")) as [->|Hne]; [auto|].
    rewrite lookup_insert_ne in Hv by done.
    apply lookup_singleton_Some in Hv as [<- _]. auto.
  - intros field [v Hv].
    destruct (decide (field = "thinkingLevel")) as [->|Hne]; [auto|].
    rewrite lookup_insert_ne in Hv by done.
    apply lookup_singleton_Some in Hv as [<- _]. auto.
Qed.
